(** * Password strength analyzer

  A shallow embedding of [password_strength_analyzer/analyzer.py] and the
  properties its specification states about it.

  Modelling conventions.
  - A Python [str] is a Rocq [string]; a character is a code point below
    256.  Character classes, case mapping, white space and line
    boundaries are those of Python's Unicode tables on these 256 code
    points.  Two capitals fall outside the alphabet (those of U+00B5 and
    U+00FF); see [char_upper].
  - A Python [float] is a primitive binary64 float, so [score += 0.15]
    rounds exactly as the interpreter does.
  - A Python [set] is a [gset], a [dict] a [gmap].
  - The file system, the HTTP transport and the operating system's
    entropy source are the environment [Env]; each of the first two may
    answer with an exception.  What the program does to them is recorded
    as a trace of events in the state [St].  Code that may raise runs in
    the monad [M]. *)

From Stdlib Require Import ZArith List Bool Ascii String Lia.
From Stdlib Require Import Floats.
From stdpp Require Import gmap strings.

Set Warnings "-inexact-float".
Local Open Scope string_scope.

(** ** Python strings *)

Module PyStr.

Definition code (c : ascii) : N := N_of_ascii c.

Definition in_range (lo hi : N) (c : ascii) : bool :=
  ((lo <=? code c) && (code c <=? hi))%N.

(** [c.islower()] for one character: a-z, U+00AA, U+00B5, U+00BA,
    U+00DF to U+00F6 and U+00F8 to U+00FF. *)
Definition char_islower (c : ascii) : bool :=
  in_range 97 122 c || in_range 170 170 c || in_range 181 181 c || in_range 186 186 c
  || in_range 223 246 c || in_range 248 255 c.

(** [c.isupper()]: A-Z, U+00C0 to U+00D6 and U+00D8 to U+00DE. *)
Definition char_isupper (c : ascii) : bool :=
  in_range 65 90 c || in_range 192 214 c || in_range 216 222 c.

(** [c.isdigit()]: 0-9 and the superscripts U+00B2, U+00B3, U+00B9. *)
Definition char_isdigit (c : ascii) : bool :=
  in_range 48 57 c || in_range 178 179 c || in_range 185 185 c.

(** [c.isdecimal()], which is also [c in string.digits] below 256: the
    characters [int] reads as digits. *)
Definition char_isdecimal (c : ascii) : bool := in_range 48 57 c.

(** [c.isspace()], the characters [strip] removes: TAB to CR, FS to
    SPACE, U+0085 and U+00A0. *)
Definition char_isspace (c : ascii) : bool :=
  in_range 9 13 c || in_range 28 32 c || in_range 133 133 c || in_range 160 160 c.

(** [c.lower()]: every upper-case character lies 32 below its lower-case
    form. *)
Definition char_lower (c : ascii) : ascii :=
  if char_isupper c then ascii_of_N (code c + 32) else c.

(** [c.upper()]: a-z, U+00E0 to U+00F6 and U+00F8 to U+00FE lie 32 above
    their capitals; the capital of U+00DF is the two letters "SS"; U+00AA
    and U+00BA have none.  The capitals of U+00B5 and U+00FF are U+039C
    and U+0178, outside the alphabet of this development: these two
    characters are left as they are, so the result differs from Python's
    at them.  The one text of unknown origin the analyzer upper-cases is
    compared with hexadecimal digits, which neither form is (lemma
    [upper_hex_is_ascii]). *)
Definition char_upper (c : ascii) : string :=
  if in_range 97 122 c || in_range 224 246 c || in_range 248 254 c
  then String (ascii_of_N (code c - 32)) EmptyString
  else if in_range 223 223 c then "SS"
  else String c EmptyString.

(** The first character of [s.capitalize()]: the title-case form, which
    is the capital except for U+00DF. *)
Definition char_title (c : ascii) : string :=
  if in_range 223 223 c then "Ss" else char_upper c.

Fixpoint str_map (f : ascii -> ascii) (s : string) : string :=
  match s with
  | EmptyString => EmptyString
  | String c s' => String (f c) (str_map f s')
  end.

(** [s.lower()] and [s.upper()]. *)
Definition lower (s : string) : string := str_map char_lower s.

Fixpoint upper (s : string) : string :=
  match s with
  | EmptyString => EmptyString
  | String c s' => char_upper c ++ upper s'
  end.

(** [s.capitalize()]: first character in title case, the rest lower
    case. *)
Definition capitalize (s : string) : string :=
  match s with
  | EmptyString => EmptyString
  | String c s' => char_title c ++ lower s'
  end.

Fixpoint lstrip (s : string) : string :=
  match s with
  | EmptyString => EmptyString
  | String c s' => if char_isspace c then lstrip s' else s
  end.

Fixpoint rstrip (s : string) : string :=
  match s with
  | EmptyString => EmptyString
  | String c s' =>
      match rstrip s' with
      | EmptyString => if char_isspace c then EmptyString else String c EmptyString
      | r => String c r
      end
  end.

(** [s.strip()]. *)
Definition strip (s : string) : string := rstrip (lstrip s).

(** [s.startswith(p)]. *)
Definition startswith (s p : string) : bool := String.prefix p s.

(** [needle in hay] for two strings. *)
Fixpoint str_in (needle hay : string) : bool :=
  String.prefix needle hay ||
  match hay with
  | EmptyString => false
  | String _ hay' => str_in needle hay'
  end.

(** [c in s] for a character [c]. *)
Definition char_in (c : ascii) (s : string) : bool := str_in (String c EmptyString) s.

(** [any(f(c) for c in s)]. *)
Fixpoint any_char (f : ascii -> bool) (s : string) : bool :=
  match s with
  | EmptyString => false
  | String c s' => f c || any_char f s'
  end.

(** [c * n]. *)
Fixpoint repeat_char (c : ascii) (n : nat) : string :=
  match n with
  | O => EmptyString
  | S n' => String c (repeat_char c n')
  end.

(** The truth value of a string: [bool(s)]. *)
Definition truthy (s : string) : bool :=
  match s with EmptyString => false | _ => true end.

(** Line boundaries of [str.splitlines]: LF, VT, FF, CR, FS, GS, RS,
    U+0085, and CR LF as one boundary. *)
Definition is_linebreak (c : ascii) : bool :=
  in_range 10 13 c || in_range 28 30 c || in_range 133 133 c.

Fixpoint splitlines_from (cur : string) (after_cr : bool) (s : string) : list string :=
  match s with
  | EmptyString => if truthy cur then [cur] else []
  | String c s' =>
      if after_cr && Ascii.eqb c "010" then splitlines_from EmptyString false s'
      else if is_linebreak c
           then cur :: splitlines_from EmptyString (Ascii.eqb c "013") s'
           else splitlines_from (cur ++ String c EmptyString) false s'
  end.

(** [s.splitlines()]. *)
Definition splitlines (s : string) : list string :=
  splitlines_from EmptyString false s.

(** [s.split(sep)] for a one-character separator: one more field than
    there are separators. *)
Fixpoint split (sep : ascii) (s : string) : list string :=
  match s with
  | EmptyString => [EmptyString]
  | String c s' =>
      if Ascii.eqb c sep then EmptyString :: split sep s'
      else match split sep s' with
           | field :: rest => String c field :: rest
           | [] => [String c EmptyString]
           end
  end.

(** [s[:n]] and [s[n:]] for [n >= 0]. *)
Definition slice_to (n : nat) (s : string) : string := String.substring 0 n s.
Definition slice_from (n : nat) (s : string) : string :=
  String.substring n (String.length s - n) s.

(** The module [string]'s constants. *)
Definition ascii_lowercase : string := "abcdefghijklmnopqrstuvwxyz".
Definition ascii_uppercase : string := "ABCDEFGHIJKLMNOPQRSTUVWXYZ".
Definition ascii_letters : string := ascii_lowercase ++ ascii_uppercase.
Definition digits : string := "0123456789".
Definition punctuation : string :=
  String "!" (String (ascii_of_nat 34) "#$%&'()*+,-./:;<=>?@[\]^_`{|}~").

(** Decimal digits with single underscores between them, as [int]
    accepts after the sign. *)
Fixpoint int_digits (acc : Z) (after_underscore : bool) (s : string) : option Z :=
  match s with
  | EmptyString => if after_underscore then None else Some acc
  | String c s' =>
      if char_isdecimal c
      then int_digits (acc * 10 + (Z.of_N (code c) - 48)) false s'
      else if Ascii.eqb c "_" && negb after_underscore
           then int_digits acc true s'
           else None
  end.

(** The white space [int] skips at either end of a literal: TAB to CR,
    SPACE, U+0085 and U+00A0 (FS to US are not skipped). *)
Definition int_isspace (c : ascii) : bool :=
  in_range 9 13 c || in_range 32 32 c || in_range 133 133 c || in_range 160 160 c.

Fixpoint int_lstrip (s : string) : string :=
  match s with
  | EmptyString => EmptyString
  | String c s' => if int_isspace c then int_lstrip s' else s
  end.

Fixpoint int_rstrip (s : string) : string :=
  match s with
  | EmptyString => EmptyString
  | String c s' =>
      match int_rstrip s' with
      | EmptyString => if int_isspace c then EmptyString else String c EmptyString
      | r => String c r
      end
  end.

(** The digits of a literal, underscores apart. *)
Fixpoint digit_count (s : string) : nat :=
  match s with
  | EmptyString => 0
  | String c s' => if char_isdecimal c then S (digit_count s') else digit_count s'
  end.

(** [sys.get_int_max_str_digits()], at the interpreter's default. *)
Definition int_max_str_digits : nat := 4300.

(** [int(s)] in base 10: [None] stands for the [ValueError] of an invalid
    literal or of a literal with more digits than the interpreter
    converts ([int_max_str_digits], leading zeros included).
    Surrounding white space and one sign are accepted. *)
Definition parse_int (s : string) : option Z :=
  let t := int_rstrip (int_lstrip s) in
  let '(negative, body) :=
    match t with
    | String "-" r => (true, r)
    | String "+" r => (false, r)
    | _ => (false, t)
    end in
  match body with
  | EmptyString => None
  | String c _ =>
      if char_isdecimal c && (digit_count body <=? int_max_str_digits)%nat
      then option_map (fun v => if negative then (- v)%Z else v)
                      (int_digits 0 false body)
      else None
  end.

(** [s.encode("utf-8")]: the bytes of each code point below 256. *)
Definition utf8_char (c : ascii) : list Z :=
  let n := Z.of_N (code c) in
  if (n <? 128)%Z then [n] else [192 + n / 64; 128 + n mod 64]%Z.

Fixpoint encode_utf8 (s : string) : list Z :=
  match s with
  | EmptyString => []
  | String c s' => utf8_char c ++ encode_utf8 s'
  end.

End PyStr.

(** ** [hashlib.sha1] *)

Module SHA1.
Local Open Scope Z_scope.

Definition w32 (x : Z) : Z := x mod 2 ^ 32.
Definition rotl (n x : Z) : Z :=
  w32 (Z.lor (Z.shiftl x n) (Z.shiftr x (32 - n))).

Fixpoint be_bytes (n : nat) (x : Z) : list Z :=
  match n with
  | O => []
  | S n' => Z.shiftr x (8 * Z.of_nat n') mod 256 :: be_bytes n' x
  end.

Definition be_word (bs : list Z) : Z :=
  fold_left (fun acc b => acc * 256 + b) bs 0.

(** The message, a [1] bit, zero bits up to 448 modulo 512, and the bit
    length on 64 bits. *)
Definition pad (msg : list Z) : list Z :=
  let len := Z.of_nat (List.length msg) in
  msg ++ 128 :: repeat 0 (Z.to_nat ((55 - len) mod 64)) ++ be_bytes 8 (8 * len).

Fixpoint chunks (size count : nat) (l : list Z) : list (list Z) :=
  match count with
  | O => []
  | S count' => firstn size l :: chunks size count' (skipn size l)
  end.

Definition block_words (block : list Z) : list Z :=
  List.map be_word (chunks 4 16 block).

Fixpoint extend (n : nat) (w : list Z) : list Z :=
  match n with
  | O => w
  | S n' =>
      let t := List.length w in
      let at_ k := nth (t - k) w 0 in
      extend n' (w ++ [rotl 1 (Z.lxor (Z.lxor (at_ 3%nat) (at_ 8%nat))
                                      (Z.lxor (at_ 14%nat) (at_ 16%nat)))])
  end.

Definition state : Type := Z * Z * Z * Z * Z.

Definition round (t : nat) (wt : Z) (s : state) : state :=
  let '(a, b, c, d, e) := s in
  let '(f, k) :=
    if (t <? 20)%nat then (Z.lor (Z.land b c) (Z.land (Z.lxor b 4294967295) d), 1518500249)
    else if (t <? 40)%nat then (Z.lxor (Z.lxor b c) d, 1859775393)
    else if (t <? 60)%nat
         then (Z.lor (Z.lor (Z.land b c) (Z.land b d)) (Z.land c d), 2400959708)
         else (Z.lxor (Z.lxor b c) d, 3395469782) in
  (w32 (rotl 5 a + f + e + k + wt), a, rotl 30 b, c, d).

Fixpoint rounds (t : nat) (ws : list Z) (s : state) : state :=
  match ws with
  | [] => s
  | wt :: ws' => rounds (S t) ws' (round t wt s)
  end.

Definition compress (s : state) (block : list Z) : state :=
  let '(h0, h1, h2, h3, h4) := s in
  let '(a, b, c, d, e) := rounds 0 (extend 64 (block_words block)) s in
  (w32 (h0 + a), w32 (h1 + b), w32 (h2 + c), w32 (h3 + d), w32 (h4 + e)).

Definition initial : state :=
  (1732584193, 4023233417, 2562383102, 271733878, 3285377520).

Definition digest_words (msg : list Z) : state :=
  let padded := pad msg in
  fold_left compress (chunks 64 (List.length padded / 64) padded) initial.

Definition hex_digit (n : Z) : ascii :=
  ascii_of_N (Z.to_N (if n <? 10 then 48 + n else 87 + n)).

Fixpoint hex_word (n : nat) (x : Z) : string :=
  match n with
  | O => EmptyString
  | S n' => String (hex_digit (Z.shiftr x (4 * Z.of_nat n') mod 16)) (hex_word n' x)
  end.

(** [hashlib.sha1(data).hexdigest()]: forty lower-case hexadecimal
    digits. *)
Definition hexdigest (msg : list Z) : string :=
  let '(h0, h1, h2, h3, h4) := digest_words msg in
  hex_word 8 h0 ++ hex_word 8 h1 ++ hex_word 8 h2 ++ hex_word 8 h3 ++ hex_word 8 h4.

End SHA1.

(** ** Exceptions and results *)

(** The exceptions that can reach [assess_password].  [TimeoutError] is
    what [socket.timeout] names: the transport raises it as it is when the
    server accepts the connection and then stalls ([getresponse] and
    [response.read] are not wrapped by [urllib]); a timeout while
    connecting arrives wrapped in a [URLError]. *)
Inductive exn : Type :=
| ValueError (msg : string)
| URLError (reason : string)
| HTTPError (status : Z)
| TimeoutError
| UnicodeDecodeError
| OSError (msg : string)
| OtherError (name : string).

Inductive exn_class : Type :=
| ValueError_ | URLError_ | HTTPError_ | TimeoutError_ | UnicodeDecodeError_ | OSError_.

(** [isinstance(e, cls)]: [HTTPError] is a subclass of [URLError], which
    like [TimeoutError] is a subclass of [OSError]; [UnicodeDecodeError]
    is a subclass of [ValueError].  [OSError msg] stands for the errors
    of the operating system that are none of the former
    ([PermissionError], [IsADirectoryError], [ConnectionResetError]);
    [OtherError name] for an exception that is an instance of none of
    the classes named here. *)
Definition isinstance (e : exn) (cls : exn_class) : bool :=
  match e, cls with
  | ValueError _, ValueError_ => true
  | URLError _, URLError_ => true
  | URLError _, OSError_ => true
  | HTTPError _, URLError_ => true
  | HTTPError _, HTTPError_ => true
  | HTTPError _, OSError_ => true
  | TimeoutError, TimeoutError_ => true
  | TimeoutError, OSError_ => true
  | UnicodeDecodeError, UnicodeDecodeError_ => true
  | UnicodeDecodeError, ValueError_ => true
  | OSError _, OSError_ => true
  | _, _ => false
  end.

Inductive result (A : Type) : Type :=
| Ok (a : A)
| Raise (e : exn).
Arguments Ok {A} a.
Arguments Raise {A} e.

(** ** The environment and the monad of effects *)

Record Request : Type := mkRequest {
  url : string;
  headers : list (string * string)
}.

(** [file_exists] and [file_text] answer for the paths below the package
    directory.  [file_exists] gives what [path.exists()] returns, or the
    exception it lets through (an error of [os.stat] that does not mean
    absence, such as a [PermissionError] on a directory above the file);
    [file_text] gives the text [path.read_text(encoding="utf-8")]
    returns, or the exception it raises (the file cannot be opened, or
    its bytes are not UTF-8).  [urlopen] gives, for a request and a
    timeout, the decoded body of a 200 response or the exception raised
    inside the [with] block; [entropy] is the stream of draws of the
    system's random source. *)
Record Env : Type := mkEnv {
  file_exists : string -> result bool;
  file_text : string -> result string;
  urlopen : Request -> float -> result string;
  entropy : nat -> nat
}.

Inductive event : Type :=
| PathExists (path : string)
| ReadText (path : string)
| HttpGet (request : Request) (timeout : float)
| RandomDraw (bound : nat).

Record St : Type := mkSt {
  trace : list event;
  drawn : nat
}.

Definition M (A : Type) : Type := Env -> St -> St * result A.

#[global] Instance M_ret : MRet M := fun A a _ st => (st, Ok a).

#[global] Instance M_bind : MBind M := fun A B k m env st =>
  match m env st with
  | (st', Ok a) => k a env st'
  | (st', Raise e) => (st', Raise e)
  end.

Definition raise {A : Type} (e : exn) : M A := fun _ st => (st, Raise e).

(** [l.append(x)]. *)
Definition append {A : Type} (l : list A) (x : A) : list A := (l ++ [x])%list.

Definition lift_result {A : Type} (r : result A) : M A := fun _ st => (st, r).

Definition log (e : event) (st : St) : St :=
  {| trace := append (trace st) e; drawn := drawn st |}.

(** [try: m except classes: handler]. *)
Definition try_except {A : Type} (m : M A) (classes : list exn_class) (handler : M A) : M A :=
  fun env st =>
    match m env st with
    | (st', Ok a) => (st', Ok a)
    | (st', Raise e) =>
        if existsb (isinstance e) classes then handler env st' else (st', Raise e)
    end.

(** [path.exists()] and [path.read_text(encoding="utf-8")]. *)
Definition path_exists (path : string) : M bool :=
  fun env st => (log (PathExists path) st, file_exists env path).

Definition read_text (path : string) : M string :=
  fun env st => (log (ReadText path) st, file_text env path).

(** [with urlopen(request, timeout=timeout) as response:
       response.read().decode("utf-8")]. *)
Definition urlopen_read (request : Request) (timeout : float) : M string :=
  fun env st => (log (HttpGet request timeout) st, urlopen env request timeout).

(** [secrets.choice(seq)] for a non-empty sequence. *)
Definition secrets_choice {A : Type} (default : A) (seq : list A) : M A :=
  fun env st =>
    ({| trace := append (trace st) (RandomDraw (List.length seq)); drawn := S (drawn st) |},
     Ok (nth (entropy env (drawn st) mod List.length seq) seq default)).

Definition secrets_choice_char (seq : string) : M string :=
  c ← secrets_choice " "%char (list_ascii_of_string seq);
  mret (String c EmptyString).

(** ** The analyzer *)

Import PyStr.

(** Paths are relative to the package directory; [DATA_DIR] is [data]. *)
Definition BREACHED_LIST_PATHS : list string :=
  ["data/breached_passwords.txt"; "data/rockyou.txt"].

Record PasswordAssessment : Type := mkPasswordAssessment {
  password : string;
  risk_score : float;
  label : string;
  reasons : list string;
  suggestions : list string;
  breached_offline : bool;
  breached_online : option bool;
  hibp_count : option Z
}.

(** The entries one file contributes to the set. *)
Definition file_entries (text : string) : list string :=
  List.map (fun line => lower (strip line))
    (List.filter (fun line => truthy (strip line) && negb (startswith (strip line) "#"))
       (splitlines text)).

Fixpoint load_paths (paths : list string) (breached : gset string) : M (gset string) :=
  match paths with
  | [] => mret breached
  | path :: rest =>
      present ← path_exists path;
      if negb present then load_paths rest breached
      else
        text ← read_text path;
        load_paths rest (breached ∪ list_to_set (file_entries text))
  end.

Definition _load_breached_passwords : M (gset string) :=
  load_paths BREACHED_LIST_PATHS ∅.

Definition _contains_sequence (password : string) : bool :=
  let sequences :=
    [ascii_lowercase; ascii_uppercase; digits; "qwertyuiop"; "asdfghjkl"; "zxcvbnm"] in
  existsb (fun seq_ =>
             existsb (fun i => str_in (String.substring i 3 seq_) password)
                     (List.seq 0 (String.length seq_ - 2)))
          sequences.

Definition char_set (s : string) : gset ascii :=
  list_to_set (list_ascii_of_string s).

Definition _contains_repetition (password : string) : bool :=
  if (size (char_set password) <=? Nat.max 1 (String.length password / 4))%nat
  then true
  else existsb (fun char => str_in (repeat_char char 3) password)
               (elements (char_set password)).

Definition substitutions : gmap ascii ascii :=
  list_to_map [("@", "a"); ("0", "o"); ("1", "l"); ("3", "e"); ("$", "s"); ("!", "i")]%char.

Definition common_words : gset string :=
  list_to_set ["password"; "admin"; "welcome"; "dragon"; "football"; "monkey"].

Definition _check_substitutions (password : string) : bool :=
  let normalized :=
    str_map (fun c => default c (substitutions !! c)) (lower password) in
  existsb (fun word => str_in word normalized) (elements common_words).

Definition _format_risk_label (score : float) : string :=
  if (0.75 <=? score)%float then "high"
  else if (0.45 <=? score)%float then "medium"
  else "low".

Fixpoint suggestion_loop (count : nat) (suggestions : list string) : M (list string) :=
  match count with
  | O => mret suggestions
  | S count' =>
      word ← secrets_choice "" ["orbit"; "cobalt"; "harbor"; "falcon"; "ember"; "sage"; "vivid"];
      d1 ← secrets_choice_char digits;
      d2 ← secrets_choice_char digits;
      let suffix := d1 ++ d2 in
      symbol ← secrets_choice_char "!@#$%";
      letter ← secrets_choice_char ascii_letters;
      let mixed := capitalize word ++ symbol ++ suffix ++ letter in
      suggestion_loop count' (append suggestions mixed)
  end.

Definition _generate_suggestions (password : string) (count : nat) : M (list string) :=
  suggestions ← suggestion_loop count [];
  mret (match suggestions with [] => [password] | _ => suggestions end).

Definition _offline_breach_match (password : string) (breached_set : gset string) : bool :=
  let normalized := lower (strip password) in
  if bool_decide (normalized ∈ breached_set) then true
  else existsb (fun entry => truthy entry && str_in entry normalized)
               (elements breached_set).

(** [int(s)]. *)
Definition py_int (s : string) : result Z :=
  match parse_int s with
  | Some v => Ok v
  | None => Raise (ValueError "invalid literal for int() with base 10")
  end.

(** The loop over the lines of the response body. *)
Fixpoint scan_lines (suffix : string) (lines : list string) : result (bool * option Z) :=
  match lines with
  | [] => Ok (false, Some 0%Z)
  | line :: rest =>
      if negb (truthy line) then scan_lines suffix rest
      else
        match split ":" line with
        | [candidate_suffix; count] =>
            if String.eqb (upper (strip candidate_suffix)) suffix
            then match py_int (strip count) with
                 | Ok n => Ok (true, Some n)
                 | Raise e => Raise e
                 end
            else scan_lines suffix rest
        | [_] => Raise (ValueError "not enough values to unpack (expected 2, got 1)")
        | _ => Raise (ValueError "too many values to unpack (expected 2)")
        end
  end.

Definition _hibp_lookup (password : string) (timeout : float) : M (bool * option Z) :=
  let sha1_hash := upper (SHA1.hexdigest (encode_utf8 password)) in
  let prefix := slice_to 5 sha1_hash in
  let suffix := slice_from 5 sha1_hash in
  let url := "https://api.pwnedpasswords.com/range/" ++ prefix in
  let request := mkRequest url [("User-Agent", "PasswordStrengthAnalyzer")] in
  attempt ← try_except (body ← urlopen_read request timeout; mret (Some body))
                        [URLError_; HTTPError_]
                        (mret None);
  match attempt with
  | None => mret (false, None)
  | Some body => lift_result (scan_lines suffix (splitlines body))
  end.

(** [min(a, b)]: the second argument wins only when it is smaller. *)
Definition py_min (a b : float) : float := if (b <? a)%float then b else a.

Definition bool_count (bs : list bool) : nat :=
  List.length (List.filter (fun b => b) bs).

Definition assess_password (password : string) (include_hibp : bool) : M PasswordAssessment :=
  if negb (truthy password) then raise (ValueError "Password must be provided")
  else
    breached_set ← _load_breached_passwords;
    let breached_offline := _offline_breach_match password breached_set in
    let reasons : list string := [] in
    let score := 0%float in
    let length := String.length password in
    let '(score, reasons) :=
      if (length <? 8)%nat
      then ((score + 0.4)%float, append reasons "Too short (under 8 characters)")
      else if (length <? 12)%nat
           then ((score + 0.2)%float, append reasons "Shorter than recommended (12+ characters)")
           else (score, append reasons "Length meets recommended minimum") in
    let categories :=
      bool_count [any_char char_islower password;
                  any_char char_isupper password;
                  any_char char_isdigit password;
                  any_char (fun c => char_in c punctuation) password] in
    let '(score, reasons) :=
      if (categories <=? 2)%nat
      then ((score + 0.2)%float, append reasons "Limited character variety")
      else (score, append reasons "Uses multiple character categories") in
    let '(score, reasons) :=
      if _contains_sequence (lower password)
      then ((score + 0.15)%float, append reasons "Contains sequential or keyboard patterns")
      else (score, reasons) in
    let '(score, reasons) :=
      if _contains_repetition password
      then ((score + 0.15)%float, append reasons "Contains repeated characters or low entropy")
      else (score, reasons) in
    let '(score, reasons) :=
      if _check_substitutions password
      then ((score + 0.15)%float, append reasons "Uses predictable substitutions of common words")
      else (score, reasons) in
    let '(score, reasons) :=
      if breached_offline
      then ((score + 0.3)%float, append reasons "Matches an offline breached password pattern")
      else (score, reasons) in
    '(breached_online, hibp_count, score, reasons) ←
      (if include_hibp
       then
         '(found, count) ← _hibp_lookup password 5;
         if found : bool
         then mret (Some found, count, (score + 0.35)%float,
                   append reasons "Found in Have I Been Pwned password corpus")
         else if negb found && bool_decide (count = Some 0%Z)
              then mret (Some found, count, score,
                        append reasons "Not found in Have I Been Pwned password corpus")
              else mret (Some found, count, score,
                        append reasons "Have I Been Pwned lookup unavailable")
       else mret (None, None, score, reasons)
       : M (option bool * option Z * float * list string));
    let score := py_min score 1 in
    let label := _format_risk_label score in
    suggestions ← _generate_suggestions password 3;
    mret {| password := password;
           risk_score := score;
           label := label;
           reasons := reasons;
           suggestions := suggestions;
           breached_offline := breached_offline;
           breached_online := breached_online;
           hibp_count := hibp_count |}.

(** ** A first environment: no corpus files, no network, constant draws *)

Definition offline_env : Env :=
  {| file_exists := fun _ => Ok false;
     file_text := fun _ => Ok "";
     urlopen := fun _ _ => Raise (URLError "unreachable");
     entropy := fun _ => 0 |}.

Definition initial_state : St := {| trace := []; drawn := 0 |}.

(** ** What a run of the analyzer computes

    The definitions below name the pieces of a run, so that the theorems
    can speak about them; each is tied to the program by a lemma. *)

(** The value of the loader, read off the environment's files: the set
    it returns, or the first exception met on the way through the
    paths. *)
Fixpoint corpus_from (env : Env) (paths : list string) (breached : gset string)
  : result (gset string) :=
  match paths with
  | [] => Ok breached
  | path :: rest =>
      match file_exists env path with
      | Raise e => Raise e
      | Ok false => corpus_from env rest breached
      | Ok true =>
          match file_text env path with
          | Raise e => Raise e
          | Ok text => corpus_from env rest (breached ∪ list_to_set (file_entries text))
          end
      end
  end.

Definition load_value (env : Env) : result (gset string) :=
  corpus_from env BREACHED_LIST_PATHS ∅.

(** Whether the loader returns. *)
Definition loads (env : Env) : bool :=
  match load_value env with Ok _ => true | Raise _ => false end.

(** A corpus path the loader gets past: the file is absent, or it is
    present and its text can be read. *)
Definition passable (env : Env) (path : string) : Prop :=
  file_exists env path = Ok false
  \/ (file_exists env path = Ok true /\ exists text, file_text env path = Ok text).

(** A corpus path at which the loader raises [e]: [exists()] raises it,
    or the file is present and reading it raises it. *)
Definition fails_at (env : Env) (path : string) (e : exn) : Prop :=
  file_exists env path = Raise e
  \/ (file_exists env path = Ok true /\ file_text env path = Raise e).

(** The upper-case digest of a password, its 5-character prefix, its
    suffix, and the request built from the prefix. *)
Definition sha1_upper (password : string) : string :=
  upper (SHA1.hexdigest (encode_utf8 password)).
Definition hash_prefix (password : string) : string := slice_to 5 (sha1_upper password).
Definition hash_suffix (password : string) : string := slice_from 5 (sha1_upper password).

Definition range_request (prefix : string) : Request :=
  mkRequest ("https://api.pwnedpasswords.com/range/" ++ prefix)
            [("User-Agent", "PasswordStrengthAnalyzer")].

(** Upper-case hexadecimal digits, hexadecimal digits of either case, and
    [all(f(c) for c in s)]. *)
Definition is_hex_upper (c : ascii) : bool := in_range 48 57 c || in_range 65 70 c.
Definition is_hex_digit (c : ascii) : bool :=
  in_range 48 57 c || in_range 65 70 c || in_range 97 102 c.

Fixpoint all_char (f : ascii -> bool) (s : string) : bool :=
  match s with
  | EmptyString => true
  | String c s' => f c && all_char f s'
  end.

(** The requests a trace sends to the remote service. *)
Fixpoint outbound (tr : list event) : list Request :=
  match tr with
  | [] => []
  | HttpGet request _ :: tr' => request :: outbound tr'
  | _ :: tr' => outbound tr'
  end.

(** The value of [_hibp_lookup], read off the environment's transport. *)
Definition lookup_value (password : string) (timeout : float) (env : Env)
  : result (bool * option Z) :=
  match urlopen env (range_request (hash_prefix password)) timeout with
  | Ok body => scan_lines (hash_suffix password) (splitlines body)
  | Raise e =>
      if existsb (isinstance e) [URLError_; HTTPError_] then Ok (false, None) else Raise e
  end.

(** The score and the reasons after the five structural signals (the
    statements of [assess_password] from [reasons = []] down to the
    substitution check). *)
Definition heuristics (password : string) : float * list string :=
  let reasons : list string := [] in
  let score := 0%float in
  let length := String.length password in
  let '(score, reasons) :=
    if (length <? 8)%nat
    then ((score + 0.4)%float, append reasons "Too short (under 8 characters)")
    else if (length <? 12)%nat
         then ((score + 0.2)%float, append reasons "Shorter than recommended (12+ characters)")
         else (score, append reasons "Length meets recommended minimum") in
  let categories :=
    bool_count [any_char char_islower password;
                any_char char_isupper password;
                any_char char_isdigit password;
                any_char (fun c => char_in c punctuation) password] in
  let '(score, reasons) :=
    if (categories <=? 2)%nat
    then ((score + 0.2)%float, append reasons "Limited character variety")
    else (score, append reasons "Uses multiple character categories") in
  let '(score, reasons) :=
    if _contains_sequence (lower password)
    then ((score + 0.15)%float, append reasons "Contains sequential or keyboard patterns")
    else (score, reasons) in
  let '(score, reasons) :=
    if _contains_repetition password
    then ((score + 0.15)%float, append reasons "Contains repeated characters or low entropy")
    else (score, reasons) in
  if _check_substitutions password
  then ((score + 0.15)%float, append reasons "Uses predictable substitutions of common words")
  else (score, reasons).

(** The offline step and the online step on a score and its reasons. *)
Definition offline_step (matched : bool) (sr : float * list string) : float * list string :=
  if matched
  then ((sr.1 + 0.3)%float, append sr.2 "Matches an offline breached password pattern")
  else sr.

Definition online_step (online : option (bool * option Z)) (sr : float * list string)
  : float * list string :=
  match online with
  | None => sr
  | Some (found, count) =>
      if found : bool
      then ((sr.1 + 0.35)%float, append sr.2 "Found in Have I Been Pwned password corpus")
      else if bool_decide (count = Some 0%Z)
           then (sr.1, append sr.2 "Not found in Have I Been Pwned password corpus")
           else (sr.1, append sr.2 "Have I Been Pwned lookup unavailable")
  end.

(** The assessment of a run whose lookup (if any) gave [online] and whose
    generator gave [suggestions]. *)
Definition assessment_of (password : string) (corpus : gset string)
    (online : option (bool * option Z)) (suggestions : list string) : PasswordAssessment :=
  let matched := _offline_breach_match password corpus in
  let sr := online_step online (offline_step matched (heuristics password)) in
  {| password := password;
     risk_score := py_min sr.1 1;
     label := _format_risk_label (py_min sr.1 1);
     reasons := sr.2;
     suggestions := suggestions;
     breached_offline := matched;
     breached_online := option_map fst online;
     hibp_count := from_option snd None online |}.

(** The lookup a run performs: none when the online check is off. *)
Definition online_value (password : string) (include_hibp : bool) (env : Env)
  : result (option (bool * option Z)) :=
  if include_hibp
  then match lookup_value password 5 env with
       | Ok r => Ok (Some r)
       | Raise e => Raise e
       end
  else Ok None.

(** The two checks of a run on a non-empty password, in the order of the
    program: the corpus is loaded first, and the lookup is made only if
    the loader returned. *)
Definition checks_value (password : string) (include_hibp : bool) (env : Env)
  : result (gset string * option (bool * option Z)) :=
  match load_value env with
  | Raise e => Raise e
  | Ok corpus =>
      match online_value password include_hibp env with
      | Raise e => Raise e
      | Ok online => Ok (corpus, online)
      end
  end.

(** ** More environments *)

(** A server that accepts the connection and then stalls: the timeout
    fires while the response is awaited, and [socket.timeout] is raised
    as it is. *)
Definition stalled_env : Env :=
  {| file_exists := fun _ => Ok false;
     file_text := fun _ => Ok "";
     urlopen := fun _ _ => Raise TimeoutError;
     entropy := fun _ => 0 |}.

(** The offline environment with another stream of draws. *)
Definition counting_env : Env :=
  {| file_exists := file_exists offline_env;
     file_text := file_text offline_env;
     urlopen := urlopen offline_env;
     entropy := fun n => n |}.

(** Two environments with the same corpus in different files, and
    different draws. *)
Definition first_file_env : Env :=
  {| file_exists := fun path => Ok (String.eqb path "data/breached_passwords.txt");
     file_text := fun _ => Ok "password";
     urlopen := fun _ _ => Ok "";
     entropy := fun _ => 0 |}.

Definition second_file_env : Env :=
  {| file_exists := fun path => Ok (String.eqb path "data/rockyou.txt");
     file_text := fun _ => Ok ("# leaked" ++ String "010" "  PassWord ");
     urlopen := fun _ _ => Ok "";
     entropy := fun n => n |}.

(** A server that answers every request with the given body. *)
Definition serving_env (body : string) : Env :=
  {| file_exists := fun _ => Ok false;
     file_text := fun _ => Ok "";
     urlopen := fun _ _ => Ok body;
     entropy := fun _ => 0 |}.

(** ** The shape of a response line *)

(** A suffix and a decimal count separated by exactly one colon. *)
Definition line_well_formed (line : string) : bool :=
  match split ":" line with
  | [_; count] => truthy count && all_char char_isdecimal count
  | _ => false
  end.

(** A line whose count (the text after the last colon) has no more
    characters than [int] converts digits. *)
Definition count_within_limit (line : string) : bool :=
  match split ":" line with
  | [_; count] => (String.length count <=? int_max_str_digits)%nat
  | _ => true
  end.

(** A line the loop steps over: an empty line, or two fields whose first
    does not match the suffix. *)
Definition line_skipped (suffix line : string) : bool :=
  negb (truthy line) ||
  match split ":" line with
  | [candidate_suffix; _] => negb (String.eqb (upper (strip candidate_suffix)) suffix)
  | _ => false
  end.

(** A line on which the loop raises: a non-empty line that does not split
    into two fields, or one that matches the suffix with a count that
    [int] rejects. *)
Definition line_raises (suffix line : string) : bool :=
  truthy line &&
  match split ":" line with
  | [candidate_suffix; count] =>
      String.eqb (upper (strip candidate_suffix)) suffix
      && negb (bool_decide (is_Some (parse_int (strip count))))
  | _ => true
  end.

(** A string that begins, or ends, with a character that is not white
    space. *)
Definition starts_nonspace (s : string) : bool :=
  match s with
  | EmptyString => false
  | String c _ => negb (char_isspace c)
  end.

Fixpoint ends_nonspace (s : string) : bool :=
  match s with
  | EmptyString => false
  | String c EmptyString => negb (char_isspace c)
  | String _ s' => ends_nonspace s'
  end.

(** An entry that begins and ends with a character that is not white
    space. *)
Definition trimmed (entry : string) : Prop :=
  starts_nonspace entry = true /\ ends_nonspace entry = true.

(** ** Names for the properties of the remaining functions *)

(** The lines of a corpus file that the loader keeps. *)
Definition kept_line (line : string) : bool :=
  truthy (strip line) && negb (startswith (strip line) "#").

(** The labels in the order low, medium, high. *)
Definition label_rank (label : string) : nat :=
  if String.eqb label "high" then 2
  else if String.eqb label "medium" then 1
  else 0.

(** A response in which the suffix of "password" comes twice, in lower
    case the first time, after a line with another suffix. *)
Definition duplicated_suffix_body : string :=
  "0018A45C4D1DEF81644B54AB7F969B88D65:10"
  ++ String "010" (" 1e4c9b93f3f0682250b6cf8331b7ee68fd8 : 3 "
  ++ String "010" "1E4C9B93F3F0682250B6CF8331B7EE68FD8:9").

(** What every generated suggestion looks like: 8 to 10 characters, with
    a character of each of the four categories. *)
Definition suggestion_shape (s : string) : bool :=
  (8 <=? String.length s)%nat && (String.length s <=? 10)%nat
  && any_char char_isupper s && any_char char_islower s
  && any_char char_isdigit s && any_char (fun c => char_in c punctuation) s.

(** An environment whose first corpus file is present and is not valid
    UTF-8: reading it raises. *)
Definition undecodable_env : Env :=
  {| file_exists := fun path => Ok (String.eqb path "data/breached_passwords.txt");
     file_text := fun _ => Raise UnicodeDecodeError;
     urlopen := fun _ _ => Ok "";
     entropy := fun _ => 0 |}.

(** An environment in which the data directory cannot be searched:
    [exists()] raises. *)
Definition forbidden_env : Env :=
  {| file_exists := fun _ => Raise (OSError "Permission denied");
     file_text := fun _ => Raise (OSError "Permission denied");
     urlopen := fun _ _ => Ok "";
     entropy := fun _ => 0 |}.

(** A response line with the suffix of "password" and a count of 4301
    digits. *)
Definition oversized_count_body : string :=
  "1E4C9B93F3F0682250B6CF8331B7EE68FD8:" ++ repeat_char "1" 4301.

(** An environment in which "password" is in the corpus file and in the
    remote service's answer. *)
Definition breached_env : Env :=
  {| file_exists := fun path => Ok (String.eqb path "data/breached_passwords.txt");
     file_text := fun _ => Ok "password";
     urlopen := fun _ _ => Ok "1E4C9B93F3F0682250B6CF8331B7EE68FD8:3861493";
     entropy := fun _ => 0 |}.

(** * Properties *)

(** ** Checks of the embedding on known values *)

Example punctuation_length : String.length punctuation = 32.
Proof. reflexivity. Qed.

Example strip_example :
  strip (String "009" " Pass word " ++ String "013" (String "010" "")) = "Pass word".
Proof. reflexivity. Qed.

Example splitlines_example :
  splitlines ("a" ++ String "013" (String "010" ("b" ++ String "010" (String "010" "c"
              ++ String "010" ""))))
  = ["a"; "b"; ""; "c"].
Proof. reflexivity. Qed.

Example split_example :
  split ":" "A1:7" = ["A1"; "7"] /\ split ":" "A1" = ["A1"]
  /\ split ":" "A1:7:" = ["A1"; "7"; ""] /\ split ":" "" = [""].
Proof. repeat apply conj; reflexivity. Qed.

Example parse_int_examples :
  parse_int "3861493" = Some 3861493%Z /\ parse_int " 007 " = Some 7%Z
  /\ parse_int "-12" = Some (-12)%Z /\ parse_int "1_000" = Some 1000%Z
  /\ parse_int "" = None /\ parse_int "n/a" = None /\ parse_int "1__0" = None
  /\ parse_int "12_" = None /\ parse_int "+" = None /\ parse_int "1 2" = None
  /\ parse_int (String "160" "3") = Some 3%Z /\ parse_int (String "028" "3") = None
  /\ parse_int (String "178" "") = None.
Proof. repeat apply conj; reflexivity. Qed.

(** [int] converts 4300 digits and rejects 4301, leading zeros and
    digits between underscores included. *)
Example parse_int_limit :
  is_Some (parse_int (repeat_char "1" 4300))
  /\ parse_int (repeat_char "1" 4301) = None
  /\ parse_int (repeat_char "0" 4301) = None
  /\ is_Some (parse_int ("-" ++ repeat_char "9" 4300))
  /\ parse_int ("1_" ++ repeat_char "1" 4300) = None.
Proof.
  repeat apply conj;
    first [ apply (bool_decide_unpack _); vm_compute; exact I | vm_compute; reflexivity ].
Qed.

(** Beyond ASCII: U+00C9 is an upper-case letter whose lower-case form is
    U+00E9, U+00B2 is a digit that [int] does not read, U+00DF has a
    two-letter capital, U+00A0 is white space and U+0085 ends a line. *)
Example latin1_examples :
  char_isupper "201" = true /\ char_islower "233" = true
  /\ lower (String "201" "COLE") = String "233" "cole"
  /\ upper (String "233" "cole") = String "201" "COLE"
  /\ upper ("stra" ++ String "223" "e") = "STRASSE"
  /\ char_isdigit "178" = true /\ char_isdecimal "178" = false
  /\ strip (String "160" ("x y" ++ String "133" "")) = "x y"
  /\ splitlines ("ab" ++ String "133" "cd") = ["ab"; "cd"]
  /\ encode_utf8 (String "233" "") = [195; 169]%Z.
Proof. repeat apply conj; reflexivity. Qed.

Example file_entries_example :
  file_entries ("# common passwords" ++ String "010" ("  PassWord " ++ String "010"
                (String "010" ("123456" ++ String "010" "   #hidden"))))
  = ["password"; "123456"].
Proof. reflexivity. Qed.

Example contains_sequence_examples :
  _contains_sequence "p@ssw0rd123" = true /\ _contains_sequence "x-fgh-y" = true
  /\ _contains_sequence "correct horse" = false /\ _contains_sequence "ab1cd2" = false.
Proof. repeat apply conj; vm_compute; reflexivity. Qed.

Example contains_repetition_examples :
  _contains_repetition "aaa" = true /\ _contains_repetition "abababab" = true
  /\ _contains_repetition "xx111yz" = true /\ _contains_repetition "P@ssw0rd123" = false.
Proof. repeat apply conj; vm_compute; reflexivity. Qed.

Example check_substitutions_examples :
  _check_substitutions "P@$$w0rd" = true /\ _check_substitutions "my-ADM!N-key" = true
  /\ _check_substitutions "correct horse" = false.
Proof. repeat apply conj; vm_compute; reflexivity. Qed.

Example offline_breach_match_examples :
  _offline_breach_match "  PassWord1 " {["password"]} = true
  /\ _offline_breach_match "pass" {["password"]} = false
  /\ _offline_breach_match "letmein" {["letmein"; "123456"]} = true
  /\ _offline_breach_match "anything" ∅ = false.
Proof. repeat apply conj; vm_compute; reflexivity. Qed.

(** Three signals of 0.15 add up, in binary64, to a score just below the
    "medium" threshold. *)
Example three_small_signals :
  exists a,
    (assess_password "Passwordabc111!" false offline_env initial_state).2 = Ok a
    /\ reasons a
       = ["Length meets recommended minimum";
          "Uses multiple character categories";
          "Contains sequential or keyboard patterns";
          "Contains repeated characters or low entropy";
          "Uses predictable substitutions of common words"]
    /\ risk_score a = (0 + 0.15 + 0.15 + 0.15)%float
    /\ (risk_score a <? 0.45)%float = true
    /\ label a = "low".
Proof. eexists. repeat apply conj; vm_compute; reflexivity. Qed.

(** Inputs beyond ASCII.  The password U+00E9 "1!" has three character
    categories; the password U+00C9 matches the corpus entry U+00E9; a
    corpus line holding only U+00A0 is blank; U+0085 ends a line of the
    response. *)
Example latin1_inputs :
  (exists a,
      (assess_password (String "233" "1!") false offline_env initial_state).2 = Ok a
      /\ reasons a = ["Too short (under 8 characters)"; "Uses multiple character categories"]
      /\ risk_score a = (0 + 0.4)%float
      /\ label a = "low")
  /\ _offline_breach_match (String "201" "") {[String "233" ""]} = true
  /\ file_entries (String "160" "") = []
  /\ (_hibp_lookup "password" 5
        (serving_env ("1E4C9B93F3F0682250B6CF8331B7EE68FD8:3" ++ String "133" "junk"))
        initial_state).2
     = Ok (true, Some 3%Z)
  /\ (_hibp_lookup "password" 5 (serving_env ("AB" ++ String "133" "CD:12")) initial_state).2
     = Raise (ValueError "not enough values to unpack (expected 2, got 1)").
Proof.
  split; [eexists; repeat apply conj; vm_compute; reflexivity|].
  repeat apply conj; vm_compute; reflexivity.
Qed.

(** ** Test vectors of the digest *)

Example sha1_empty :
SHA1.hexdigest [] = "da39a3ee5e6b4b0d3255bfef95601890afd80709".
Proof. vm_compute. reflexivity. Qed.

Example sha1_abc :
SHA1.hexdigest (PyStr.encode_utf8 "abc") = "a9993e364706816aba3e25717850c26c9cd0d89d".
Proof. vm_compute. reflexivity. Qed.

Example sha1_two_blocks :
SHA1.hexdigest (PyStr.encode_utf8 "abcdbcdecdefdefgefghfghighijhijkijkljklmklmnlmnomnopnopq")
= "84983e441c3bd26ebaae4aa1f95129e5e54670f1".
Proof. vm_compute. reflexivity. Qed.

(** A password beyond ASCII is hashed through its UTF-8 bytes. *)
Example sha1_latin1 :
SHA1.hexdigest (PyStr.encode_utf8 (String "233" "")) = "bf15be717ac1b080b4f1c456692825891ff5073d".
Proof. vm_compute. reflexivity. Qed.

Example sha1_password :
PyStr.upper (SHA1.hexdigest (PyStr.encode_utf8 "password"))
= "5BAA61E4C9B93F3F0682250B6CF8331B7EE68FD8".
Proof. vm_compute. reflexivity. Qed.

(** ** The monad's runs *)

Lemma outbound_app (tr1 tr2 : list event) :
  outbound (tr1 ++ tr2) = (outbound tr1 ++ outbound tr2)%list.
Proof.
  induction tr1 as [|e tr1 IH]; simpl; [reflexivity|].
  destruct e; simpl; rewrite ?IH; reflexivity.
Qed.

Lemma outbound_log (e : event) (st : St) :
  outbound (trace (log e st)) = (outbound (trace st) ++ outbound [e])%list.
Proof. unfold log, append; simpl. apply outbound_app. Qed.

Lemma load_paths_run (env : Env) (paths : list string) :
  forall (breached : gset string) (st : St),
  exists st',
    load_paths paths breached env st = (st', corpus_from env paths breached)
    /\ outbound (trace st') = outbound (trace st)
    /\ drawn st' = drawn st.
Proof.
  induction paths as [|path rest IH]; intros breached st; simpl.
  - exists st. auto.
  - unfold mbind, M_bind, path_exists, read_text.
    destruct (file_exists env path) as [[|]|e]; simpl.
    + destruct (file_text env path) as [text|e].
      * destruct (IH (breached ∪ list_to_set (file_entries text))
                     (log (ReadText path) (log (PathExists path) st)))
          as (st' & Hrun & Hout & Hdrawn).
        exists st'. rewrite Hrun. split; [reflexivity|]. split.
        -- rewrite Hout, !outbound_log. simpl. rewrite !app_nil_r. reflexivity.
        -- rewrite Hdrawn. reflexivity.
      * eexists. split; [reflexivity|]. split; [|reflexivity].
        rewrite !outbound_log. simpl. rewrite !app_nil_r. reflexivity.
    + destruct (IH breached (log (PathExists path) st)) as (st' & Hrun & Hout & Hdrawn).
      exists st'. rewrite Hrun. split; [reflexivity|]. split.
      * rewrite Hout, outbound_log. simpl. rewrite app_nil_r. reflexivity.
      * rewrite Hdrawn. reflexivity.
    + eexists. split; [reflexivity|]. split; [|reflexivity].
      rewrite outbound_log. simpl. rewrite app_nil_r. reflexivity.
Qed.

Lemma load_breached_passwords_run (env : Env) (st : St) :
  exists st',
    _load_breached_passwords env st = (st', load_value env)
    /\ outbound (trace st') = outbound (trace st)
    /\ drawn st' = drawn st.
Proof. apply load_paths_run. Qed.

Lemma secrets_choice_char_run (seq : string) (env : Env) (st : St) :
  exists st' c,
    secrets_choice_char seq env st = (st', Ok c)
    /\ outbound (trace st') = outbound (trace st).
Proof.
  unfold secrets_choice_char, mbind, M_bind, secrets_choice, mret, M_ret.
  eexists _, _. split; [reflexivity|].
  simpl. unfold append. rewrite outbound_app. simpl. apply app_nil_r.
Qed.

Lemma suggestion_loop_run (env : Env) (count : nat) :
  forall (acc : list string) (st : St),
  exists st' l,
    suggestion_loop count acc env st = (st', Ok l)
    /\ outbound (trace st') = outbound (trace st).
Proof.
  induction count as [|count IH]; intros acc st; simpl.
  - exists st, acc. split; reflexivity.
  - unfold mbind, M_bind at 1. unfold secrets_choice at 1. simpl.
    set (st1 := {| trace := _; drawn := _ |}).
    unfold mbind, M_bind at 1.
    destruct (secrets_choice_char digits env st1) as [st2 r2] eqn:E2.
    destruct (secrets_choice_char_run digits env st1) as (? & d1 & H2 & O2).
    rewrite E2 in H2. injection H2 as <- ->.
    unfold mbind, M_bind at 1.
    destruct (secrets_choice_char_run digits env st2) as (st3 & d2 & H3 & O3).
    rewrite H3.
    unfold mbind, M_bind at 1.
    destruct (secrets_choice_char_run "!@#$%" env st3) as (st4 & sy & H4 & O4).
    rewrite H4.
    unfold mbind, M_bind at 1.
    destruct (secrets_choice_char_run ascii_letters env st4) as (st5 & le & H5 & O5).
    rewrite H5.
    destruct (IH (append acc (capitalize
                (nth (entropy env (drawn st) mod 7)
                   ["orbit"; "cobalt"; "harbor"; "falcon"; "ember"; "sage"; "vivid"] "")
                ++ sy ++ (d1 ++ d2) ++ le)) st5) as (st6 & l & H6 & O6).
    exists st6, l. split.
    + exact H6.
    + rewrite O6, O5, O4, O3, O2. subst st1. simpl. unfold append.
      rewrite outbound_app. simpl. apply app_nil_r.
Qed.

Lemma generate_suggestions_run (password : string) (count : nat) (env : Env) (st : St) :
  exists st' l,
    _generate_suggestions password count env st = (st', Ok l)
    /\ outbound (trace st') = outbound (trace st).
Proof.
  unfold _generate_suggestions, mbind, M_bind.
  destruct (suggestion_loop_run env count [] st) as (st' & l & Hrun & Hout).
  rewrite Hrun. eexists _, _. split; [reflexivity | exact Hout].
Qed.

Lemma hibp_lookup_run (password : string) (timeout : float) (env : Env) (st : St) :
  _hibp_lookup password timeout env st
  = (log (HttpGet (range_request (hash_prefix password)) timeout) st,
     lookup_value password timeout env).
Proof.
  unfold _hibp_lookup, lookup_value, try_except, mbind, M_bind, urlopen_read.
  fold (sha1_upper password). fold (hash_prefix password). fold (hash_suffix password).
  fold (range_request (hash_prefix password)).
  destruct (urlopen env (range_request (hash_prefix password)) timeout) as [body|e].
  - reflexivity.
  - destruct (existsb (isinstance e) [URLError_; HTTPError_]); reflexivity.
Qed.

Lemma truthy_nonempty (s : string) : s <> "" -> truthy s = true.
Proof. destruct s; [congruence | reflexivity]. Qed.

Lemma checks_value_ok (password : string) (include_hibp : bool) (env : Env)
    (corpus : gset string) (online : option (bool * option Z)) :
  checks_value password include_hibp env = Ok (corpus, online)
  <-> load_value env = Ok corpus /\ online_value password include_hibp env = Ok online.
Proof.
  unfold checks_value.
  destruct (load_value env) as [c|e]; [|split; [discriminate | intros [H _]; discriminate]].
  destruct (online_value password include_hibp env) as [o|e].
  - split; [intros H; injection H as -> ->; auto | intros [H1 H2]; congruence].
  - split; [discriminate | intros [_ H]; discriminate].
Qed.

(** A run raises what the loader raises or, the loader having returned,
    what the lookup raises. *)
Lemma checks_value_raise (password : string) (include_hibp : bool) (env : Env) (e : exn) :
  checks_value password include_hibp env = Raise e ->
  load_value env = Raise e
  \/ (include_hibp = true /\ lookup_value password 5 env = Raise e).
Proof.
  unfold checks_value, online_value.
  destruct (load_value env) as [c|e']; [|intros H; injection H as ->; left; reflexivity].
  destruct include_hibp; [|discriminate].
  destruct (lookup_value password 5 env) as [r|e']; [discriminate|].
  intros H. injection H as ->. right. split; reflexivity.
Qed.

(** A run on a non-empty password whose loader returns [corpus]. *)
Lemma assess_password_run_loaded
    (password : string) (include_hibp : bool) (env : Env) (st : St) (corpus : gset string) :
  password <> "" ->
  load_value env = Ok corpus ->
  exists st' suggestions,
    assess_password password include_hibp env st
    = (st', match online_value password include_hibp env with
            | Ok online => Ok (assessment_of password corpus online suggestions)
            | Raise e => Raise e
            end)
    /\ outbound (trace st')
       = (outbound (trace st)
          ++ if include_hibp then [range_request (hash_prefix password)] else [])%list.
Proof.
  intros Hne Hvalue.
  destruct (load_breached_passwords_run env st) as (st1 & Hload & Hout1 & _).
  rewrite Hvalue in Hload.
  set (st2 := if include_hibp
              then log (HttpGet (range_request (hash_prefix password)) 5) st1 else st1).
  destruct (generate_suggestions_run password 3 env st2) as (st3 & sg & Hsg & Hout3).
  assert (Hout2 : outbound (trace st2)
                  = (outbound (trace st)
                     ++ if include_hibp then [range_request (hash_prefix password)] else [])%list).
  { subst st2. destruct include_hibp.
    - rewrite outbound_log, Hout1. reflexivity.
    - rewrite Hout1, app_nil_r. reflexivity. }
  unfold assess_password, assessment_of, heuristics, online_value.
  rewrite (truthy_nonempty _ Hne). change (negb true) with false. cbv iota.
  unfold mbind at 1. unfold M_bind at 1. cbv beta. rewrite Hload.
  cbv zeta.
  repeat match goal with
         | |- context [match ?E with (_, _) => _ end] =>
             match E with
             | (if _ then _ else _) => destruct E as [? ?] eqn:?
             end
         end.
  unfold offline_step. cbn [fst snd]. rewrite Heqp4.
  subst st2. unfold mbind, M_bind. destruct include_hibp.
  - rewrite hibp_lookup_run.
    destruct (lookup_value password 5 env) as [[found count]|e].
    + exists st3, sg. split; [| rewrite Hout3; exact Hout2].
      destruct found; [| destruct (bool_decide (count = Some 0%Z)) eqn:Hcount];
        cbn -[_generate_suggestions _offline_breach_match py_min _format_risk_label];
        rewrite ?Hcount, Hsg; reflexivity.
    + eexists _, sg. split; [reflexivity | exact Hout2].
  - exists st3, sg. split; [| rewrite Hout3; exact Hout2].
    cbn -[_generate_suggestions _offline_breach_match py_min _format_risk_label].
    rewrite Hsg. reflexivity.
Qed.

(** A run on a non-empty password whose loader raises: the exception
    leaves [assess_password], and nothing is sent. *)
Lemma assess_password_run_unloaded
    (password : string) (include_hibp : bool) (env : Env) (st : St) (e : exn) :
  password <> "" ->
  load_value env = Raise e ->
  exists st',
    assess_password password include_hibp env st = (st', Raise e)
    /\ outbound (trace st') = outbound (trace st).
Proof.
  intros Hne Hvalue.
  destruct (load_breached_passwords_run env st) as (st1 & Hload & Hout1 & _).
  rewrite Hvalue in Hload. exists st1. split; [|exact Hout1].
  unfold assess_password.
  rewrite (truthy_nonempty _ Hne). change (negb true) with false. cbv iota.
  unfold mbind at 1. unfold M_bind at 1. cbv beta. rewrite Hload. reflexivity.
Qed.

(** A run on a non-empty password: the result is the assessment built
    from the loaded corpus and the lookup's value, or the exception of
    the loader or of the lookup; the requests sent are the lookup's one,
    if it was asked for and the loader returned. *)
Lemma assess_password_run (password : string) (include_hibp : bool) (env : Env) (st : St) :
  password <> "" ->
  exists st' suggestions,
    assess_password password include_hibp env st
    = (st', match checks_value password include_hibp env with
            | Ok (corpus, online) =>
                Ok (assessment_of password corpus online suggestions)
            | Raise e => Raise e
            end)
    /\ outbound (trace st')
       = (outbound (trace st)
          ++ if include_hibp && loads env
             then [range_request (hash_prefix password)] else [])%list.
Proof.
  intros Hne. unfold checks_value, loads.
  destruct (load_value env) as [corpus|e] eqn:Hvalue.
  - destruct (assess_password_run_loaded password include_hibp env st corpus Hne Hvalue)
      as (st' & sg & Hrun & Hout).
    exists st', sg. rewrite Hrun, andb_true_r. split; [|exact Hout].
    destruct (online_value password include_hibp env); reflexivity.
  - destruct (assess_password_run_unloaded password include_hibp env st e Hne Hvalue)
      as (st' & Hrun & Hout).
    exists st', []. rewrite Hrun, andb_false_r, app_nil_r. split; [reflexivity | exact Hout].
Qed.

(** ** Comparisons of binary64 floats *)

Lemma SFcompare_Lt_swap (x y : spec_float) :
  SFcompare x y = Some Lt -> SFcompare y x = Some Gt.
Proof.
  destruct x as [sx|sx| |sx mx ex], y as [sy|sy| |sy my ey]; simpl;
    try destruct sx; try destruct sy; simpl; try congruence.
  - rewrite (Z.compare_antisym ey ex).
    destruct (ey ?= ex)%Z; simpl; try congruence.
    rewrite !Pos.compare_cont_spec; simpl.
    rewrite (Pos.compare_antisym my mx).
    destruct (my ?= mx)%positive; simpl; congruence.
  - rewrite (Z.compare_antisym ey ex).
    destruct (ey ?= ex)%Z; simpl; try congruence.
    rewrite !Pos.compare_cont_spec; simpl.
    rewrite (Pos.compare_antisym my mx).
    destruct (my ?= mx)%positive; simpl; congruence.
Qed.

Lemma ltb_leb_false (x y : float) :
  (x <? y)%float = true -> (y <=? x)%float = false.
Proof.
  rewrite ltb_spec, leb_spec. unfold SFltb, SFleb.
  destruct (SFcompare (Prim2SF x) (Prim2SF y)) as [[]|] eqn:E; try discriminate.
  intros _. rewrite (SFcompare_Lt_swap _ _ E). reflexivity.
Qed.

Lemma ltb_045_075 (x : float) :
  (x <? 0.45)%float = true -> (x <? 0.75)%float = true.
Proof.
  rewrite !ltb_spec.
  change (Prim2SF 0.45) with (S754_finite false 8106479329266893 (-54)).
  change (Prim2SF 0.75) with (S754_finite false 6755399441055744 (-53)).
  unfold SFltb.
  destruct (Prim2SF x) as [s|s| |s m e]; cbn [SFcompare]; try destruct s; try congruence.
  destruct (Z.compare_spec e (-54)) as [He|He|He]; try discriminate.
  - subst e. reflexivity.
  - intros _. destruct (Z.compare_spec e (-53)) as [He'|He'|He']; try reflexivity; lia.
Qed.

(** ** The label *)

Lemma format_risk_label_step (score : float) :
  ((score <? 0.45)%float = true -> _format_risk_label score = "low")
  /\ ((0.45 <=? score)%float = true -> (score <? 0.75)%float = true ->
      _format_risk_label score = "medium")
  /\ ((0.75 <=? score)%float = true -> _format_risk_label score = "high").
Proof.
  unfold _format_risk_label. repeat split.
  - intros Hlt.
    rewrite (ltb_leb_false _ _ (ltb_045_075 _ Hlt)), (ltb_leb_false _ _ Hlt). reflexivity.
  - intros Hge Hlt. rewrite (ltb_leb_false _ _ Hlt), Hge. reflexivity.
  - intros Hge. rewrite Hge. reflexivity.
Qed.

(** ** The score *)

Ltac case_signals password :=
  unfold heuristics;
  generalize (String.length password <? 8)%nat, (String.length password <? 12)%nat;
  generalize (bool_count [any_char char_islower password;
                          any_char char_isupper password;
                          any_char char_isdigit password;
                          any_char (fun c => char_in c punctuation) password] <=? 2)%nat;
  generalize (_contains_sequence (lower password)), (_contains_repetition password),
             (_check_substitutions password);
  intros [] [] [] [] [] [].

Lemma assessment_score_range (password : string) (corpus : gset string)
    (online : option (bool * option Z)) (suggestions : list string) :
  (0 <=? risk_score (assessment_of password corpus online suggestions))%float = true
  /\ (risk_score (assessment_of password corpus online suggestions) <=? 1)%float = true.
Proof.
  unfold assessment_of. cbn [risk_score]. unfold online_step, offline_step.
  destruct online as [[[] count]|]; [ | destruct (bool_decide (count = Some 0%Z)) | ];
    generalize (_offline_breach_match password corpus); intros [];
    case_signals password; split; reflexivity.
Qed.

(** C2.  For every non-empty password, whatever the corpus files hold and
    whatever the transport answers, the assessment that [assess_password]
    returns has a risk score between 0.0 and 1.0; the call returns an
    assessment unless the loader raised, or the online lookup was asked
    for and raised. *)
Theorem risk_score_in_unit_interval
    (password : string) (include_hibp : bool) (env : Env) (st : St) :
  password <> "" ->
  match (assess_password password include_hibp env st).2 with
  | Ok a => (0 <=? risk_score a)%float = true /\ (risk_score a <=? 1)%float = true
  | Raise e =>
      load_value env = Raise e
      \/ (include_hibp = true /\ lookup_value password 5 env = Raise e)
  end.
Proof.
  intros Hne.
  destruct (assess_password_run password include_hibp env st Hne) as (st' & sg & Hrun & _).
  rewrite Hrun. cbn [snd].
  destruct (checks_value password include_hibp env) as [[corpus online]|e] eqn:Hchecks.
  - apply assessment_score_range.
  - apply (checks_value_raise _ _ _ _ Hchecks).
Qed.

Lemma risk_score_in_unit_interval_witness :
  match (assess_password "aaa" false offline_env initial_state).2 with
  | Ok a => (0 <=? risk_score a)%float = true /\ (risk_score a <=? 1)%float = true
  | Raise e =>
      load_value offline_env = Raise e
      \/ (false = true /\ lookup_value "aaa" 5 offline_env = Raise e)
  end.
Proof.
  apply (risk_score_in_unit_interval "aaa" false offline_env initial_state).
  discriminate.
Defined.

(** C3.  The label is a step function of the risk score with thresholds
    0.45 and 0.75: below 0.45 it is "low", from 0.45 and below 0.75 it is
    "medium", from 0.75 on it is "high"; and the label of every assessment
    that [assess_password] returns is that function of its risk score. *)
Theorem label_is_step_function_of_risk_score :
  (forall score : float,
      ((score <? 0.45)%float = true -> _format_risk_label score = "low")
      /\ ((0.45 <=? score)%float = true -> (score <? 0.75)%float = true ->
          _format_risk_label score = "medium")
      /\ ((0.75 <=? score)%float = true -> _format_risk_label score = "high"))
  /\ (forall (password : string) (include_hibp : bool) (env : Env) (st : St),
         match (assess_password password include_hibp env st).2 with
         | Ok a => label a = _format_risk_label (risk_score a)
         | Raise _ => True
         end).
Proof.
  split; [exact format_risk_label_step|].
  intros password include_hibp env st.
  destruct (string_dec password "") as [->|Hne]; [exact I|].
  destruct (assess_password_run password include_hibp env st Hne) as (st' & sg & Hrun & _).
  rewrite Hrun. cbn [snd].
  destruct (checks_value password include_hibp env) as [[corpus online]|e];
    [reflexivity | exact I].
Qed.

(** C4.  On the empty string [assess_password] raises the validation
    error at once: the state is returned unchanged, so no file was looked
    at, no request was sent and nothing was drawn. *)
Theorem assess_password_empty (include_hibp : bool) (env : Env) (st : St) :
  (assess_password "" include_hibp env st).2
  = Raise (ValueError "Password must be provided")
  /\ (forall a, (assess_password "" include_hibp env st).2 <> Ok a)
  /\ (assess_password "" include_hibp env st).1 = st
  /\ outbound (trace (assess_password "" include_hibp env st).1) = outbound (trace st).
Proof.
  split; [reflexivity|]. split; [|split; reflexivity].
  intros a H. discriminate H.
Qed.

(** On a non-empty password, by contrast, the two corpus paths are looked
    at before anything else. *)
Example nonempty_password_loads_the_corpus :
  firstn 2 (trace (assess_password "x" false offline_env initial_state).1)
  = [PathExists "data/breached_passwords.txt"; PathExists "data/rockyou.txt"].
Proof. vm_compute. reflexivity. Qed.

(** ** Two passwords of the specification *)

Lemma heuristics_aaa :
  heuristics "aaa"
  = ((0 + 0.4 + 0.2 + 0.15)%float,
     ["Too short (under 8 characters)";
      "Limited character variety";
      "Contains repeated characters or low entropy"]).
Proof. vm_compute. reflexivity. Qed.

Lemma heuristics_p_ssw0rd123 :
  heuristics "P@ssw0rd123"
  = ((0 + 0.2 + 0.15 + 0.15)%float,
     ["Shorter than recommended (12+ characters)";
      "Uses multiple character categories";
      "Contains sequential or keyboard patterns";
      "Uses predictable substitutions of common words"]).
Proof. vm_compute. reflexivity. Qed.

Ltac in_list := repeat first [left; reflexivity | right].

Ltac not_in_list :=
  let H := fresh in
  intros H; repeat (destruct H as [H|H]; [discriminate H|]); exact H.

Ltac case_breach_checks :=
  unfold assessment_of, online_step, offline_step;
  match goal with
  | |- context [_offline_breach_match ?p ?c] =>
      generalize (_offline_breach_match p c); intros []
  end;
  match goal with
  | |- context [match ?online with Some _ => _ | None => _ end] =>
      destruct online as [[[] [[| |]|]]|]
  end.

(** C8.  On "aaa" the too-short signal (+0.4) and the repetition signal
    (+0.15) both fire, the risk score reaches 0.45, and the label is
    "medium" or "high", whatever the corpus and the online outcome; the
    call returns an assessment unless the loader or the lookup raised. *)
Theorem aaa_is_short_and_repetitive (include_hibp : bool) (env : Env) (st : St) :
  heuristics "aaa"
  = ((0 + 0.4 + 0.2 + 0.15)%float,
     ["Too short (under 8 characters)";
      "Limited character variety";
      "Contains repeated characters or low entropy"])
  /\ match (assess_password "aaa" include_hibp env st).2 with
     | Ok a =>
         List.In "Too short (under 8 characters)" (reasons a)
         /\ List.In "Contains repeated characters or low entropy" (reasons a)
         /\ (0.45 <=? risk_score a)%float = true
         /\ (label a = "medium" \/ label a = "high")
     | Raise e =>
         load_value env = Raise e
         \/ (include_hibp = true /\ lookup_value "aaa" 5 env = Raise e)
     end.
Proof.
  split; [exact heuristics_aaa|].
  destruct (assess_password_run "aaa" include_hibp env st) as (st' & sg & Hrun & _);
    [discriminate|].
  rewrite Hrun. cbn [snd].
  destruct (checks_value "aaa" include_hibp env) as [[corpus online]|e] eqn:Hchecks;
    [|apply (checks_value_raise _ _ _ _ Hchecks)].
  case_breach_checks; rewrite heuristics_aaa; vm_compute;
    repeat apply conj;
    first [reflexivity | solve [in_list] | (left; reflexivity) | (right; reflexivity)].
Qed.

(** C7 as the specification states it fails: "P@ssw0rd123" has 11
    characters, so the length signal reports "Shorter than recommended
    (12+ characters)" and adds 0.2; "Length meets recommended minimum" is
    not among the reasons. *)
Lemma p_ssw0rd123_length_reason_absent :
  String.length "P@ssw0rd123" = 11
  /\ exists a,
       (assess_password "P@ssw0rd123" false offline_env initial_state).2 = Ok a
       /\ reasons a
          = ["Shorter than recommended (12+ characters)";
             "Uses multiple character categories";
             "Contains sequential or keyboard patterns";
             "Uses predictable substitutions of common words"]
       /\ ~ List.In "Length meets recommended minimum" (reasons a).
Proof.
  split; [reflexivity|].
  eexists. split; [vm_compute; reflexivity|]. split; [reflexivity|].
  cbn [reasons]. not_in_list.
Qed.

(** C7, amended.  On "P@ssw0rd123" (11 characters) the reasons include
    "Shorter than recommended (12+ characters)", the
    multiple-character-categories reason and the predictable-substitution
    reason, and not "Length meets recommended minimum"; the structural
    signals that fire add 0.2 (length), 0.15 (the sequence "123") and 0.15
    (substitution), and the risk score is that sum, plus 0.3 when the
    offline check matched and 0.35 when the online check found the
    password, clamped at 1.0.  The call returns an assessment unless the
    loader or the lookup raised. *)
Theorem p_ssw0rd123_assessment (include_hibp : bool) (env : Env) (st : St) :
  heuristics "P@ssw0rd123"
  = ((0 + 0.2 + 0.15 + 0.15)%float,
     ["Shorter than recommended (12+ characters)";
      "Uses multiple character categories";
      "Contains sequential or keyboard patterns";
      "Uses predictable substitutions of common words"])
  /\ match (assess_password "P@ssw0rd123" include_hibp env st).2 with
     | Ok a =>
         List.In "Shorter than recommended (12+ characters)" (reasons a)
         /\ List.In "Uses multiple character categories" (reasons a)
         /\ List.In "Uses predictable substitutions of common words" (reasons a)
         /\ ~ List.In "Length meets recommended minimum" (reasons a)
         /\ risk_score a
            = py_min
                (let fired := (0 + 0.2 + 0.15 + 0.15)%float in
                 let fired := if breached_offline a then (fired + 0.3)%float else fired in
                 if bool_decide (breached_online a = Some true)
                 then (fired + 0.35)%float else fired)
                1
     | Raise e =>
         load_value env = Raise e
         \/ (include_hibp = true /\ lookup_value "P@ssw0rd123" 5 env = Raise e)
     end.
Proof.
  split; [exact heuristics_p_ssw0rd123|].
  destruct (assess_password_run "P@ssw0rd123" include_hibp env st) as (st' & sg & Hrun & _);
    [discriminate|].
  rewrite Hrun. cbn [snd].
  destruct (checks_value "P@ssw0rd123" include_hibp env) as [[corpus online]|e] eqn:Hchecks;
    [|apply (checks_value_raise _ _ _ _ Hchecks)].
  case_breach_checks; rewrite heuristics_p_ssw0rd123; vm_compute;
    repeat apply conj; first [reflexivity | solve [in_list] | not_in_list].
Qed.

(** ** Determinism *)

Lemma corpus_from_ext (env1 env2 : Env) (paths : list string) :
  (forall path, file_exists env1 path = file_exists env2 path) ->
  (forall path, file_text env1 path = file_text env2 path) ->
  forall breached, corpus_from env1 paths breached = corpus_from env2 paths breached.
Proof.
  intros Hex Htext. induction paths as [|path rest IH]; intros breached; simpl.
  - reflexivity.
  - rewrite Hex, Htext. destruct (file_exists env2 path) as [[|]|e]; [|apply IH|reflexivity].
    destruct (file_text env2 path); [apply IH | reflexivity].
Qed.

(** Environments with the same files load the same corpus, or fail to
    load it with the same exception. *)
Lemma load_value_ext (env1 env2 : Env) :
  (forall path, file_exists env1 path = file_exists env2 path) ->
  (forall path, file_text env1 path = file_text env2 path) ->
  load_value env1 = load_value env2.
Proof. intros Hex Htext. apply corpus_from_ext; assumption. Qed.

(** C9.  Two calls on the same non-empty password, in environments whose
    files give the same corpus (or make the loader raise the same
    exception) and, when the online check is on, whose transport gives
    the same answer to the request, return the same risk score and the
    same label, or raise the same exception; the random draws and the
    state the calls start from play no part. *)
Theorem assessment_is_deterministic
    (password : string) (include_hibp : bool) (env1 env2 : Env) (st1 st2 : St) :
  password <> "" ->
  load_value env1 = load_value env2 ->
  (include_hibp = true ->
   urlopen env1 (range_request (hash_prefix password)) 5
   = urlopen env2 (range_request (hash_prefix password)) 5) ->
  match (assess_password password include_hibp env1 st1).2,
        (assess_password password include_hibp env2 st2).2 with
  | Ok a1, Ok a2 => risk_score a1 = risk_score a2 /\ label a1 = label a2
  | Raise e1, Raise e2 => e1 = e2
  | _, _ => False
  end.
Proof.
  intros Hne Hcorpus Hnet.
  destruct (assess_password_run password include_hibp env1 st1 Hne) as (? & sg1 & Hrun1 & _).
  destruct (assess_password_run password include_hibp env2 st2 Hne) as (? & sg2 & Hrun2 & _).
  rewrite Hrun1, Hrun2. cbn [snd]. unfold checks_value. rewrite Hcorpus.
  assert (Honline : online_value password include_hibp env1
                    = online_value password include_hibp env2).
  { unfold online_value, lookup_value. destruct include_hibp; [|reflexivity].
    rewrite (Hnet eq_refl). reflexivity. }
  rewrite Honline.
  destruct (load_value env2) as [corpus|e]; [|reflexivity].
  destruct (online_value password include_hibp env2); [split|]; reflexivity.
Qed.

Lemma assessment_is_deterministic_witness :
  match (assess_password "Password1!" true first_file_env initial_state).2,
        (assess_password "Password1!" true second_file_env (mkSt [RandomDraw 7] 1)).2 with
  | Ok a1, Ok a2 => risk_score a1 = risk_score a2 /\ label a1 = label a2
  | Raise e1, Raise e2 => e1 = e2
  | _, _ => False
  end.
Proof.
  apply (assessment_is_deterministic "Password1!" true first_file_env second_file_env).
  - discriminate.
  - vm_compute. reflexivity.
  - intros _. reflexivity.
Defined.

Example suggestions_depend_on_the_draws :
  exists a1 a2,
    (assess_password "aaa" true offline_env initial_state).2 = Ok a1
    /\ (assess_password "aaa" true counting_env initial_state).2 = Ok a2
    /\ suggestions a1 = ["Orbit!00a"; "Orbit!00a"; "Orbit!00a"]
    /\ suggestions a2 = ["Orbit$12e"; "Sage$67j"; "Falcon$12o"].
Proof. eexists _, _. repeat apply conj; vm_compute; reflexivity. Qed.

(** ** Strings: lengths, slices, containment *)

Lemma app_cons (c : ascii) (s t : string) : String c s ++ t = String c (s ++ t).
Proof. reflexivity. Qed.

Lemma app_empty (s : string) : "" ++ s = s.
Proof. reflexivity. Qed.

Lemma length_app (s t : string) :
  String.length (s ++ t) = String.length s + String.length t.
Proof. induction s as [|c s IH]; simpl; [reflexivity | rewrite IH; reflexivity]. Qed.

Lemma length_str_map (f : ascii -> ascii) (s : string) :
  String.length (str_map f s) = String.length s.
Proof. induction s as [|c s IH]; simpl; [reflexivity | rewrite IH; reflexivity]. Qed.

Lemma substring_whole (s : string) : String.substring 0 (String.length s) s = s.
Proof. induction s as [|c s IH]; simpl; [reflexivity | rewrite IH; reflexivity]. Qed.

Lemma slice_app (n : nat) (s : string) :
  s = slice_to n s ++ slice_from n s.
Proof.
  unfold slice_to, slice_from. revert n.
  induction s as [|c s IH]; intros [|n]; try reflexivity.
  - change (String.length (String c s) - 0) with (S (String.length s)).
    simpl. rewrite substring_whole. reflexivity.
  - simpl. rewrite app_cons. f_equal. apply IH.
Qed.

Lemma length_slice_to (n : nat) (s : string) :
  n <= String.length s -> String.length (slice_to n s) = n.
Proof.
  unfold slice_to. revert n.
  induction s as [|c s IH]; intros [|n] Hn; simpl in *; try reflexivity; try lia.
  rewrite IH; [reflexivity | lia].
Qed.

Lemma length_slice_from (n : nat) (s : string) :
  n <= String.length s -> String.length (slice_from n s) = String.length s - n.
Proof.
  intros Hn. pose proof (f_equal String.length (slice_app n s)) as H.
  rewrite length_app, (length_slice_to n s Hn) in H. lia.
Qed.

Lemma all_char_app (f : ascii -> bool) (s t : string) :
  all_char f (s ++ t) = all_char f s && all_char f t.
Proof.
  induction s as [|c s IH]; simpl; [reflexivity|].
  rewrite IH, andb_assoc. reflexivity.
Qed.

Lemma prefix_length (s t : string) :
  String.prefix s t = true -> String.length s <= String.length t.
Proof.
  revert t. induction s as [|a s IH]; intros t H; simpl; [lia|].
  destruct t as [|b t]; simpl in H; [discriminate|].
  destruct (ascii_dec a b); [|discriminate].
  apply IH in H. simpl. lia.
Qed.

Lemma str_in_cons (needle : string) (b : ascii) (hay : string) :
  str_in needle (String b hay) = String.prefix needle (String b hay) || str_in needle hay.
Proof. reflexivity. Qed.

Lemma str_in_short (needle hay : string) :
  String.length hay < String.length needle -> str_in needle hay = false.
Proof.
  induction hay as [|b hay IH]; intros Hlen.
  - destruct needle; [simpl in Hlen; lia | reflexivity].
  - rewrite str_in_cons, IH by (simpl in Hlen; lia).
    destruct (String.prefix needle (String b hay)) eqn:E; [|reflexivity].
    apply prefix_length in E. lia.
Qed.

Lemma str_in_skip (c : ascii) (rest base tail : string) :
  any_char (Ascii.eqb c) base = false ->
  str_in (String c rest) (base ++ tail) = str_in (String c rest) tail.
Proof.
  induction base as [|b base IH]; intros H; [reflexivity|].
  simpl in H. apply orb_false_elim in H as [Hb Hbase].
  rewrite app_cons, str_in_cons, (IH Hbase). simpl String.prefix.
  destruct (ascii_dec c b) as [->|_]; [|reflexivity].
  rewrite Ascii.eqb_refl in Hb. discriminate.
Qed.

(** ** The digest *)

Lemma length_hex_word (n : nat) (x : Z) : String.length (SHA1.hex_word n x) = n.
Proof. induction n as [|n IH]; simpl; [reflexivity | rewrite IH; reflexivity]. Qed.

(** The capital of a hexadecimal digit is one upper-case hexadecimal
    digit. *)
Lemma hex_digit_upper (n : Z) :
  (0 <= n < 16)%Z ->
  exists c, char_upper (SHA1.hex_digit n) = String c "" /\ is_hex_upper c = true.
Proof.
  intros Hn.
  assert (H : List.In n [0; 1; 2; 3; 4; 5; 6; 7; 8; 9; 10; 11; 12; 13; 14; 15]%Z).
  { simpl. lia. }
  simpl in H.
  repeat (destruct H as [<-|H]; [eexists; split; reflexivity|]). destruct H.
Qed.

Lemma hex_word_upper (n : nat) (x : Z) :
  all_char is_hex_upper (upper (SHA1.hex_word n x)) = true
  /\ String.length (upper (SHA1.hex_word n x)) = n.
Proof.
  induction n as [|n [IHhex IHlen]]; [split; reflexivity|].
  cbn [SHA1.hex_word upper].
  destruct (hex_digit_upper (Z.shiftr x (4 * Z.of_nat n) mod 16)) as (c & -> & Hc);
    [apply Z.mod_pos_bound; lia|].
  rewrite app_cons, app_empty. cbn [all_char String.length]. rewrite Hc, IHhex, IHlen.
  split; reflexivity.
Qed.

Lemma str_app_assoc (s t u : string) : (s ++ t) ++ u = s ++ (t ++ u).
Proof.
  induction s as [|c s IH]; [reflexivity|]. rewrite !app_cons, IH. reflexivity.
Qed.

Lemma upper_app (s t : string) : upper (s ++ t) = upper s ++ upper t.
Proof.
  induction s as [|c s IH]; [reflexivity|].
  rewrite app_cons. cbn [upper]. rewrite IH, str_app_assoc. reflexivity.
Qed.

Lemma length_sha1_upper (password : string) : String.length (sha1_upper password) = 40.
Proof.
  unfold sha1_upper, SHA1.hexdigest.
  destruct (SHA1.digest_words (encode_utf8 password)) as [[[[h0 h1] h2] h3] h4].
  rewrite !upper_app, !length_app.
  rewrite !(proj2 (hex_word_upper _ _)). reflexivity.
Qed.

Lemma sha1_upper_hex (password : string) :
  all_char is_hex_upper (sha1_upper password) = true.
Proof.
  unfold sha1_upper, SHA1.hexdigest.
  destruct (SHA1.digest_words (encode_utf8 password)) as [[[[h0 h1] h2] h3] h4].
  rewrite !upper_app, !all_char_app, !(proj1 (hex_word_upper _ _)). reflexivity.
Qed.

Lemma length_hash_prefix (password : string) : String.length (hash_prefix password) = 5.
Proof.
  unfold hash_prefix. apply length_slice_to. rewrite length_sha1_upper. lia.
Qed.

Lemma length_hash_suffix (password : string) : String.length (hash_suffix password) = 35.
Proof.
  unfold hash_suffix. rewrite length_slice_from; rewrite length_sha1_upper; lia.
Qed.

Lemma hash_suffix_hex (password : string) :
  all_char is_hex_upper (hash_suffix password) = true.
Proof.
  pose proof (sha1_upper_hex password) as H.
  rewrite (slice_app 5 (sha1_upper password)), all_char_app in H.
  apply andb_true_iff in H as [_ H]. exact H.
Qed.

Lemma hex_upper_not_in_base (c : ascii) :
  is_hex_upper c = true ->
  any_char (Ascii.eqb c) "https://api.pwnedpasswords.com/range/" = false.
Proof.
  destruct c as [[] [] [] [] [] [] [] []]; vm_compute; congruence.
Qed.

Lemma hash_suffix_not_in_url (password prefix : string) :
  String.length prefix = 5 ->
  str_in (hash_suffix password) (url (range_request prefix)) = false.
Proof.
  intros Hlen. pose proof (length_hash_suffix password) as H35.
  pose proof (hash_suffix_hex password) as Hhex.
  destruct (hash_suffix password) as [|c rest]; [discriminate|].
  simpl in Hhex. apply andb_true_iff in Hhex as [Hc _].
  unfold range_request. cbn [url].
  rewrite (str_in_skip _ _ _ _ (hex_upper_not_in_base c Hc)).
  apply str_in_short. rewrite Hlen, H35. lia.
Qed.

(** ** What leaves the process *)

Lemma assess_password_outbound
    (password : string) (include_hibp : bool) (env : Env) (st : St) :
  outbound (trace (assess_password password include_hibp env st).1)
  = (outbound (trace st)
     ++ if include_hibp && truthy password && loads env
        then [range_request (hash_prefix password)] else [])%list.
Proof.
  destruct (string_dec password "") as [->|Hne].
  - cbn [truthy]. rewrite andb_false_r, app_nil_r. reflexivity.
  - destruct (assess_password_run password include_hibp env st Hne) as (st' & sg & Hrun & Hout).
    rewrite Hrun, (truthy_nonempty _ Hne), andb_true_r. exact Hout.
Qed.

(** C1.  The only data a call sends to the remote service is one request
    whose URL is the fixed range endpoint followed by the first 5
    characters of the password's upper-case SHA-1 digest, with one fixed
    header; it is sent when the online check is asked for, the password
    is not empty and the loader has returned, and nothing is sent
    otherwise.  The request is a function of that prefix alone: two
    passwords with the same prefix send the same data, so nothing else
    about the password is transmitted; and the remaining 35 hexadecimal
    characters of the digest occur neither in the URL nor in the header. *)
Theorem only_the_hash_prefix_is_sent
    (password : string) (include_hibp : bool) (env : Env) (st : St) :
  outbound (trace (assess_password password include_hibp env st).1)
  = (outbound (trace st)
     ++ if include_hibp && truthy password && loads env
        then [range_request (hash_prefix password)] else [])%list
  /\ (forall timeout,
         outbound (trace (_hibp_lookup password timeout env st).1)
         = (outbound (trace st) ++ [range_request (hash_prefix password)])%list)
  /\ url (range_request (hash_prefix password))
     = "https://api.pwnedpasswords.com/range/" ++ hash_prefix password
  /\ headers (range_request (hash_prefix password))
     = [("User-Agent", "PasswordStrengthAnalyzer")]
  /\ sha1_upper password = hash_prefix password ++ hash_suffix password
  /\ String.length (hash_prefix password) = 5
  /\ String.length (hash_suffix password) = 35
  /\ all_char is_hex_upper (sha1_upper password) = true
  /\ str_in (hash_suffix password) (url (range_request (hash_prefix password))) = false
  /\ str_in (hash_suffix password) "User-Agent" = false
  /\ str_in (hash_suffix password) "PasswordStrengthAnalyzer" = false
  /\ (forall other env' st',
         truthy other = truthy password ->
         hash_prefix other = hash_prefix password ->
         loads env' = loads env ->
         outbound (trace st') = outbound (trace st) ->
         outbound (trace (assess_password other include_hibp env' st').1)
         = outbound (trace (assess_password password include_hibp env st).1)).
Proof.
  pose proof (length_hash_suffix password) as H35.
  repeat apply conj.
  - apply assess_password_outbound.
  - intros timeout. rewrite hibp_lookup_run. cbn [fst]. apply outbound_log.
  - reflexivity.
  - reflexivity.
  - apply slice_app.
  - apply length_hash_prefix.
  - exact H35.
  - apply sha1_upper_hex.
  - apply hash_suffix_not_in_url, length_hash_prefix.
  - apply str_in_short. rewrite H35. simpl. lia.
  - apply str_in_short. rewrite H35. simpl. lia.
  - intros other env' st' Htruthy Hprefix Hloads Hst.
    rewrite !assess_password_outbound, Htruthy, Hprefix, Hloads, Hst. reflexivity.
Qed.

Example same_prefix_same_request :
  "password136" <> "password1818"
  /\ hash_prefix "password136" = "BD30B"
  /\ hash_prefix "password1818" = "BD30B"
  /\ hash_suffix "password136" <> hash_suffix "password1818"
  /\ outbound (trace (assess_password "password136" true offline_env initial_state).1)
     = outbound (trace (assess_password "password1818" true offline_env initial_state).1).
Proof.
  repeat apply conj.
  - discriminate.
  - vm_compute. reflexivity.
  - vm_compute. reflexivity.
  - vm_compute. discriminate.
  - vm_compute. reflexivity.
Qed.

(** ** Failures of the transport *)

Lemma lookup_value_caught (password : string) (timeout : float) (env : Env) (e : exn) :
  urlopen env (range_request (hash_prefix password)) timeout = Raise e ->
  isinstance e URLError_ = true ->
  lookup_value password timeout env = Ok (false, None).
Proof.
  intros Hnet Hcls. unfold lookup_value. rewrite Hnet. simpl. rewrite Hcls. reflexivity.
Qed.

Lemma lookup_value_uncaught (password : string) (timeout : float) (env : Env) (e : exn) :
  urlopen env (range_request (hash_prefix password)) timeout = Raise e ->
  isinstance e URLError_ = false ->
  lookup_value password timeout env = Raise e.
Proof.
  intros Hnet Hcls. unfold lookup_value. rewrite Hnet. simpl. rewrite Hcls.
  destruct e; try discriminate Hcls; reflexivity.
Qed.

(** A [URLError] or an [HTTPError] of the transport is absorbed: the
    assessment is returned, marked as not found online with no count, with
    the reason that the lookup was unavailable, and with no online
    increment in the score. *)
Lemma url_error_is_absorbed (password : string) (env : Env) (st : St) (e : exn) :
  password <> "" ->
  loads env = true ->
  urlopen env (range_request (hash_prefix password)) 5 = Raise e ->
  isinstance e URLError_ = true ->
  exists a,
    (assess_password password true env st).2 = Ok a
    /\ breached_online a = Some false
    /\ hibp_count a = None
    /\ List.In "Have I Been Pwned lookup unavailable" (reasons a)
    /\ risk_score a = py_min (offline_step (breached_offline a) (heuristics password)).1 1.
Proof.
  intros Hne Hloads Hnet Hcls.
  destruct (assess_password_run password true env st Hne) as (st' & sg & Hrun & _).
  rewrite Hrun. cbn [snd]. unfold checks_value, online_value.
  unfold loads in Hloads. destruct (load_value env) as [corpus|]; [|discriminate].
  rewrite (lookup_value_caught _ _ _ _ Hnet Hcls).
  eexists. split; [reflexivity|].
  unfold assessment_of, online_step.
  cbn [breached_online hibp_count reasons risk_score breached_offline
       option_map from_option fst snd].
  repeat apply conj; try reflexivity.
  unfold append. apply in_or_app. right. left. reflexivity.
Qed.

(** Any other exception of the transport leaves [assess_password] as it
    was raised. *)
Lemma other_error_propagates (password : string) (env : Env) (st : St) (e : exn) :
  password <> "" ->
  loads env = true ->
  urlopen env (range_request (hash_prefix password)) 5 = Raise e ->
  isinstance e URLError_ = false ->
  (assess_password password true env st).2 = Raise e.
Proof.
  intros Hne Hloads Hnet Hcls.
  destruct (assess_password_run password true env st Hne) as (st' & sg & Hrun & _).
  rewrite Hrun. cbn [snd]. unfold checks_value, online_value.
  unfold loads in Hloads. destruct (load_value env) as [corpus|]; [|discriminate].
  rewrite (lookup_value_uncaught _ _ _ _ Hnet Hcls). reflexivity.
Qed.

(** C5, where the code departs from the specification.  When the server
    stalls and the transport raises [TimeoutError], [_hibp_lookup] does
    not catch it and [assess_password] raises it: no assessment is
    returned. *)
Theorem read_timeout_propagates :
  isinstance TimeoutError URLError_ = false
  /\ isinstance TimeoutError HTTPError_ = false
  /\ (_hibp_lookup "hunter2" 5 stalled_env initial_state).2 = Raise TimeoutError
  /\ (assess_password "hunter2" true stalled_env initial_state).2 = Raise TimeoutError.
Proof. repeat apply conj; vm_compute; reflexivity. Qed.

Example url_error_is_absorbed_example :
  exists a,
    (assess_password "hunter2" true offline_env initial_state).2 = Ok a
    /\ breached_online a = Some false
    /\ hibp_count a = None
    /\ List.In "Have I Been Pwned lookup unavailable" (reasons a)
    /\ risk_score a = py_min (offline_step (breached_offline a) (heuristics "hunter2")).1 1.
Proof.
  apply (url_error_is_absorbed "hunter2" offline_env initial_state (URLError "unreachable"));
    [discriminate | reflexivity | reflexivity | reflexivity].
Qed.

(** ** Parsing the response *)

Lemma digit_not_space (c : ascii) :
  char_isdecimal c = true -> char_isspace c = false /\ int_isspace c = false.
Proof. destruct c as [[] [] [] [] [] [] [] []]; vm_compute; split; congruence. Qed.

Lemma rstrip_no_space (s : string) :
  all_char (fun c => negb (char_isspace c)) s = true -> rstrip s = s.
Proof.
  induction s as [|c s IH]; intros H; [reflexivity|].
  simpl in H. apply andb_true_iff in H as [Hc Hs].
  simpl. rewrite (IH Hs). apply negb_true_iff in Hc. rewrite Hc.
  destruct s; reflexivity.
Qed.

Lemma all_char_impl (f g : ascii -> bool) (s : string) :
  (forall c, f c = true -> g c = true) -> all_char f s = true -> all_char g s = true.
Proof.
  intros Hfg. induction s as [|c s IH]; simpl; [reflexivity|].
  intros H. apply andb_true_iff in H as [Hc Hs].
  rewrite (Hfg _ Hc), (IH Hs). reflexivity.
Qed.

Lemma strip_digits (s : string) : all_char char_isdecimal s = true -> strip s = s.
Proof.
  intros H. unfold strip.
  assert (Hl : lstrip s = s).
  { destruct s as [|c s]; [reflexivity|]. simpl in *.
    apply andb_true_iff in H as [Hc _]. rewrite (proj1 (digit_not_space _ Hc)). reflexivity. }
  rewrite Hl. apply rstrip_no_space.
  apply (all_char_impl char_isdecimal); [|exact H].
  intros c Hc. rewrite (proj1 (digit_not_space _ Hc)). reflexivity.
Qed.

Lemma int_rstrip_no_space (s : string) :
  all_char (fun c => negb (int_isspace c)) s = true -> int_rstrip s = s.
Proof.
  induction s as [|c s IH]; intros H; [reflexivity|].
  simpl in H. apply andb_true_iff in H as [Hc Hs].
  simpl. rewrite (IH Hs). apply negb_true_iff in Hc. rewrite Hc.
  destruct s; reflexivity.
Qed.

Lemma int_strip_digits (s : string) :
  all_char char_isdecimal s = true -> int_rstrip (int_lstrip s) = s.
Proof.
  intros H.
  assert (Hl : int_lstrip s = s).
  { destruct s as [|c s]; [reflexivity|]. simpl in *.
    apply andb_true_iff in H as [Hc _]. rewrite (proj2 (digit_not_space _ Hc)). reflexivity. }
  rewrite Hl. apply int_rstrip_no_space.
  apply (all_char_impl char_isdecimal); [|exact H].
  intros c Hc. rewrite (proj2 (digit_not_space _ Hc)). reflexivity.
Qed.

Lemma int_digits_total (s : string) :
  all_char char_isdecimal s = true ->
  forall acc, is_Some (int_digits acc false s).
Proof.
  induction s as [|c s IH]; intros H acc; simpl.
  - eexists. reflexivity.
  - simpl in H. apply andb_true_iff in H as [Hc Hs]. rewrite Hc. apply IH, Hs.
Qed.

Lemma digit_count_digits (s : string) :
  all_char char_isdecimal s = true -> digit_count s = String.length s.
Proof.
  induction s as [|c s IH]; intros H; [reflexivity|].
  simpl in H. apply andb_true_iff in H as [Hc Hs].
  simpl. rewrite Hc, (IH Hs). reflexivity.
Qed.

Lemma digit_count_le (s : string) : digit_count s <= String.length s.
Proof.
  induction s as [|c s IH]; simpl; [lia|]. destruct (char_isdecimal c); lia.
Qed.

(** [int] accepts every non-empty string of decimal digits that is not
    longer than the interpreter's limit. *)
Lemma parse_int_digits (s : string) :
  truthy s = true -> all_char char_isdecimal s = true ->
  String.length s <= int_max_str_digits ->
  is_Some (parse_int (strip s)).
Proof.
  intros Hne Hdigits Hlen. rewrite (strip_digits s Hdigits).
  unfold parse_int. rewrite (int_strip_digits s Hdigits).
  destruct (int_digits_total s Hdigits 0%Z) as [v Hv].
  assert (Hcount : (digit_count s <=? int_max_str_digits)%nat = true).
  { apply Nat.leb_le. rewrite (digit_count_digits s Hdigits). exact Hlen. }
  destruct s as [|c s]; [discriminate|].
  pose proof Hdigits as Hc. simpl in Hc. apply andb_true_iff in Hc as [Hc _].
  destruct c as [[] [] [] [] [] [] [] []]; try discriminate Hc;
    cbv beta iota; rewrite Hc, Hcount, Hv; eexists; reflexivity.
Qed.

(** [int] rejects every literal with more digits than the limit. *)
Lemma parse_int_over_limit (s : string) :
  all_char char_isdecimal s = true ->
  int_max_str_digits < String.length s ->
  parse_int (strip s) = None.
Proof.
  intros Hdigits Hlen. rewrite (strip_digits s Hdigits).
  unfold parse_int. rewrite (int_strip_digits s Hdigits).
  assert (Hcount : (digit_count s <=? int_max_str_digits)%nat = false).
  { apply Nat.leb_gt. rewrite (digit_count_digits s Hdigits). exact Hlen. }
  destruct s as [|c s]; [reflexivity|].
  pose proof Hdigits as Hc. simpl in Hc. apply andb_true_iff in Hc as [Hc _].
  destruct c as [[] [] [] [] [] [] [] []]; try discriminate Hc;
    cbv beta iota; rewrite Hcount, andb_false_r; reflexivity.
Qed.

Lemma well_formed_line_does_not_raise (suffix line : string) :
  line_well_formed line = true -> count_within_limit line = true ->
  line_raises suffix line = false.
Proof.
  unfold line_well_formed, count_within_limit, line_raises.
  destruct (split ":" line) as [|s [|c [|? ?]]]; try discriminate.
  intros H Hlimit. apply andb_true_iff in H as [Hne Hdigits]. apply Nat.leb_le in Hlimit.
  rewrite (bool_decide_eq_true_2 _ (parse_int_digits c Hne Hdigits Hlimit)).
  rewrite andb_false_r, andb_false_r. reflexivity.
Qed.

(** A well-formed line with the suffix whose count is over the limit
    raises. *)
Lemma oversized_count_raises (suffix line : string) :
  line_well_formed line = true -> count_within_limit line = false ->
  line_skipped suffix line = false ->
  line_raises suffix line = true.
Proof.
  unfold line_well_formed, count_within_limit, line_skipped, line_raises.
  destruct (truthy line); [|discriminate]. cbn [negb orb andb].
  destruct (split ":" line) as [|s [|c [|? ?]]]; try discriminate.
  intros H Hlimit Hskip. apply andb_true_iff in H as [Hne Hdigits].
  apply Nat.leb_gt in Hlimit. apply negb_false_iff in Hskip. rewrite Hskip.
  rewrite (parse_int_over_limit c Hdigits Hlimit). reflexivity.
Qed.

Lemma scan_lines_skip (suffix line : string) (rest : list string) :
  line_skipped suffix line = true ->
  scan_lines suffix (line :: rest) = scan_lines suffix rest.
Proof.
  unfold line_skipped. simpl. destruct (truthy line); simpl; [|reflexivity].
  destruct (split ":" line) as [|s [|c [|? ?]]]; try discriminate.
  intros H. apply negb_true_iff in H. rewrite H. reflexivity.
Qed.

Lemma scan_lines_raise (suffix line : string) (rest : list string) :
  line_raises suffix line = true ->
  exists msg, scan_lines suffix (line :: rest) = Raise (ValueError msg).
Proof.
  unfold line_raises. simpl. destruct (truthy line); simpl; [|discriminate].
  destruct (split ":" line) as [|s [|c [|? ?]]]; try (eexists; reflexivity).
  intros H. apply andb_true_iff in H as [Hs Hc]. rewrite Hs.
  apply negb_true_iff, bool_decide_eq_false in Hc.
  unfold py_int. destruct (parse_int (strip c)) as [v|].
  - exfalso. apply Hc. eexists. reflexivity.
  - eexists. reflexivity.
Qed.

Lemma scan_lines_hit (suffix line : string) (rest : list string) :
  line_skipped suffix line = false ->
  line_raises suffix line = false ->
  exists n, scan_lines suffix (line :: rest) = Ok (true, Some n).
Proof.
  unfold line_skipped, line_raises. simpl. destruct (truthy line); simpl; [|discriminate].
  destruct (split ":" line) as [|s [|c [|? ?]]]; try discriminate.
  intros Hs Hc. apply negb_false_iff in Hs. rewrite Hs in *. simpl in Hc.
  apply negb_false_iff, bool_decide_eq_true in Hc. destruct Hc as [v Hv].
  unfold py_int. rewrite Hv. eexists. reflexivity.
Qed.

(** The loop raises exactly when, after lines it steps over, it meets a
    line on which it raises. *)
Lemma scan_lines_raises_iff (suffix : string) (lines : list string) :
  (exists e, scan_lines suffix lines = Raise e)
  <-> exists pre line post,
        lines = (pre ++ line :: post)%list
        /\ forallb (line_skipped suffix) pre = true
        /\ line_raises suffix line = true.
Proof.
  split.
  - induction lines as [|line rest IH]; intros [e He]; [discriminate|].
    destruct (line_skipped suffix line) eqn:Hskip.
    + rewrite (scan_lines_skip _ _ _ Hskip) in He.
      destruct (IH (ex_intro _ e He)) as (pre & l & post & -> & Hpre & Hl).
      exists (line :: pre), l, post. simpl. rewrite Hskip, Hpre. auto.
    + destruct (line_raises suffix line) eqn:Hraise.
      * exists [], line, rest. auto.
      * destruct (scan_lines_hit _ _ rest Hskip Hraise) as [n Hn]. congruence.
  - intros (pre & line & post & -> & Hpre & Hl).
    induction pre as [|l pre IH]; cbn [app forallb] in *.
    + destruct (scan_lines_raise _ _ post Hl) as [msg Hmsg]. eauto.
    + apply andb_true_iff in Hpre as [Hskip Hpre].
      rewrite (scan_lines_skip _ _ _ Hskip). apply IH, Hpre.
Qed.

Lemma scan_lines_raises_value_error (suffix : string) (lines : list string) (e : exn) :
  scan_lines suffix lines = Raise e -> exists msg, e = ValueError msg.
Proof.
  induction lines as [|line rest IH]; intros He; [discriminate|].
  destruct (line_skipped suffix line) eqn:Hskip.
  - rewrite (scan_lines_skip _ _ _ Hskip) in He. apply IH, He.
  - destruct (line_raises suffix line) eqn:Hraise.
    + destruct (scan_lines_raise _ _ rest Hraise) as [msg Hmsg].
      exists msg. congruence.
    + destruct (scan_lines_hit _ _ rest Hskip Hraise) as [n Hn]. congruence.
Qed.

Lemma scan_lines_well_formed (suffix : string) (lines : list string) :
  Forall (fun line => line = ""
                      \/ (line_well_formed line = true /\ count_within_limit line = true))
         lines ->
  exists r, scan_lines suffix lines = Ok r.
Proof.
  intros Hwf. destruct (scan_lines suffix lines) as [r|e] eqn:E; [eauto|].
  exfalso.
  destruct (proj1 (scan_lines_raises_iff suffix lines) (ex_intro _ e E))
    as (pre & line & post & -> & _ & Hraise).
  apply Forall_app in Hwf as [_ Hwf].
  apply Forall_cons_iff in Hwf as [[->|[Hline Hlimit]] _].
  - discriminate Hraise.
  - rewrite (well_formed_line_does_not_raise _ _ Hline Hlimit) in Hraise. discriminate.
Qed.


(** C10 as the specification states it fails in both halves.  First
    half: the one line of [oversized_count_body] is a suffix and a
    decimal count separated by exactly one colon, yet the count has 4301
    digits, which [int] refuses to convert: the lookup and the
    assessment raise.  Second half: a line that is not a suffix and a
    decimal count goes unnoticed when its suffix does not match (the
    count is never parsed), and when it comes after the matching line
    (the loop has returned); both bodies below hold such a line, and
    both lookups return. *)
Lemma response_shape_does_not_decide_raising :
  (splitlines oversized_count_body = [oversized_count_body]
   /\ line_well_formed oversized_count_body = true
   /\ exists msg,
        (_hibp_lookup "password" 5 (serving_env oversized_count_body) initial_state).2
        = Raise (ValueError msg)
        /\ (assess_password "password" true
              (serving_env oversized_count_body) initial_state).2
           = Raise (ValueError msg))
  /\ (List.In "0018A45C4D1DEF81644B54AB7F969B88D65:n/a"
              (splitlines "0018A45C4D1DEF81644B54AB7F969B88D65:n/a")
      /\ line_well_formed "0018A45C4D1DEF81644B54AB7F969B88D65:n/a" = false
      /\ (_hibp_lookup "password" 5
            (serving_env "0018A45C4D1DEF81644B54AB7F969B88D65:n/a") initial_state).2
         = Ok (false, Some 0%Z)
      /\ exists a,
           (assess_password "password" true
              (serving_env "0018A45C4D1DEF81644B54AB7F969B88D65:n/a") initial_state).2 = Ok a)
  /\ (List.In "no colon here"
              (splitlines ("1E4C9B93F3F0682250B6CF8331B7EE68FD8:3"
                           ++ String "010" "no colon here"))
      /\ line_well_formed "no colon here" = false
      /\ (_hibp_lookup "password" 5
            (serving_env ("1E4C9B93F3F0682250B6CF8331B7EE68FD8:3"
                          ++ String "010" "no colon here")) initial_state).2
         = Ok (true, Some 3%Z)
      /\ exists a,
           (assess_password "password" true
              (serving_env ("1E4C9B93F3F0682250B6CF8331B7EE68FD8:3"
                            ++ String "010" "no colon here")) initial_state).2 = Ok a).
Proof.
  repeat apply conj.
  - vm_compute. reflexivity.
  - vm_compute. reflexivity.
  - eexists. split; vm_compute; reflexivity.
  - vm_compute. left. reflexivity.
  - vm_compute. reflexivity.
  - vm_compute. reflexivity.
  - eexists. vm_compute. reflexivity.
  - vm_compute. right. left. reflexivity.
  - vm_compute. reflexivity.
  - vm_compute. reflexivity.
  - eexists. vm_compute. reflexivity.
Qed.

(** C10, amended.  On a 200 response whose non-empty lines are each a
    suffix and a decimal count separated by exactly one colon, the count
    being no longer than the 4300 digits [int] converts, the lookup
    returns, and so does the assessment when the loader has returned.
    The lookup raises exactly when, after lines it steps over (empty
    lines and two-field lines with another suffix), it meets a non-empty
    line that does not split into two fields, or a line with the
    password's suffix whose count [int] rejects; the exception is a
    [ValueError] and leaves [assess_password] too. *)
Theorem response_parsing (password : string) (env : Env) (st : St) (body : string) :
  urlopen env (range_request (hash_prefix password)) 5 = Ok body ->
  (Forall (fun line => line = ""
                       \/ (line_well_formed line = true /\ count_within_limit line = true))
          (splitlines body) ->
   exists r,
     (_hibp_lookup password 5 env st).2 = Ok r
     /\ (password <> "" -> loads env = true ->
         exists a, (assess_password password true env st).2 = Ok a))
  /\ ((exists e, (_hibp_lookup password 5 env st).2 = Raise e)
      <-> exists pre line post,
            splitlines body = (pre ++ line :: post)%list
            /\ forallb (line_skipped (hash_suffix password)) pre = true
            /\ line_raises (hash_suffix password) line = true)
  /\ (forall e,
         (_hibp_lookup password 5 env st).2 = Raise e ->
         (exists msg, e = ValueError msg)
         /\ (password <> "" -> loads env = true ->
             (assess_password password true env st).2 = Raise e)).
Proof.
  intros Hnet.
  assert (Hassess : password <> "" -> loads env = true ->
            exists sg corpus,
              (assess_password password true env st).2
              = match scan_lines (hash_suffix password) (splitlines body) with
                | Ok r => Ok (assessment_of password corpus (Some r) sg)
                | Raise e => Raise e
                end).
  { intros Hne Hloads.
    destruct (assess_password_run password true env st Hne) as (st' & sg & Hrun & _).
    unfold loads in Hloads. destruct (load_value env) as [corpus|] eqn:Hvalue; [|discriminate].
    exists sg, corpus. rewrite Hrun. cbn [snd].
    unfold checks_value, online_value, lookup_value. rewrite Hvalue, Hnet.
    destruct (scan_lines (hash_suffix password) (splitlines body)); reflexivity. }
  rewrite hibp_lookup_run. cbn [snd]. unfold lookup_value. rewrite Hnet.
  split; [|split].
  - intros Hwf.
    destruct (scan_lines_well_formed (hash_suffix password) _ Hwf) as [r Hr].
    exists r. split; [exact Hr|]. intros Hne Hloads.
    destruct (Hassess Hne Hloads) as (sg & corpus & Hsg). rewrite Hsg, Hr. eauto.
  - apply scan_lines_raises_iff.
  - intros e He. split.
    + apply (scan_lines_raises_value_error _ _ _ He).
    + intros Hne Hloads. destruct (Hassess Hne Hloads) as (sg & corpus & Hsg).
      rewrite Hsg, He. reflexivity.
Qed.

Lemma response_parsing_witness :
  (Forall (fun line => line = ""
                       \/ (line_well_formed line = true /\ count_within_limit line = true))
          (splitlines "1E4C9B93F3F0682250B6CF8331B7EE68FD8:3") ->
   exists r,
     (_hibp_lookup "password" 5
        (serving_env "1E4C9B93F3F0682250B6CF8331B7EE68FD8:3") initial_state).2 = Ok r
     /\ ("password" <> "" ->
         loads (serving_env "1E4C9B93F3F0682250B6CF8331B7EE68FD8:3") = true ->
         exists a,
           (assess_password "password" true
              (serving_env "1E4C9B93F3F0682250B6CF8331B7EE68FD8:3") initial_state).2
           = Ok a))
  /\ ((exists e,
          (_hibp_lookup "password" 5
             (serving_env "1E4C9B93F3F0682250B6CF8331B7EE68FD8:3") initial_state).2
          = Raise e)
      <-> exists pre line post,
            splitlines "1E4C9B93F3F0682250B6CF8331B7EE68FD8:3" = (pre ++ line :: post)%list
            /\ forallb (line_skipped (hash_suffix "password")) pre = true
            /\ line_raises (hash_suffix "password") line = true)
  /\ (forall e,
         (_hibp_lookup "password" 5
            (serving_env "1E4C9B93F3F0682250B6CF8331B7EE68FD8:3") initial_state).2
         = Raise e ->
         (exists msg, e = ValueError msg)
         /\ ("password" <> "" ->
             loads (serving_env "1E4C9B93F3F0682250B6CF8331B7EE68FD8:3") = true ->
             (assess_password "password" true
                (serving_env "1E4C9B93F3F0682250B6CF8331B7EE68FD8:3") initial_state).2
             = Raise e)).
Proof.
  apply (response_parsing "password"
           (serving_env "1E4C9B93F3F0682250B6CF8331B7EE68FD8:3") initial_state
           "1E4C9B93F3F0682250B6CF8331B7EE68FD8:3").
  reflexivity.
Defined.

Example well_formed_body_is_parsed :
  Forall (fun line => line = ""
                      \/ (line_well_formed line = true /\ count_within_limit line = true))
         (splitlines ("0018A45C4D1DEF81644B54AB7F969B88D65:10"
                      ++ String "013" (String "010"
                         "1E4C9B93F3F0682250B6CF8331B7EE68FD8:3861493")))
  /\ (_hibp_lookup "password" 5
        (serving_env ("0018A45C4D1DEF81644B54AB7F969B88D65:10"
                      ++ String "013" (String "010"
                         "1E4C9B93F3F0682250B6CF8331B7EE68FD8:3861493")))
        initial_state).2
     = Ok (true, Some 3861493%Z).
Proof.
  split.
  - match goal with
    | |- Forall _ ?l => let l' := eval vm_compute in l in change l with l'
    end.
    repeat (constructor; [right; split; vm_compute; reflexivity|]). constructor.
  - vm_compute. reflexivity.
Qed.

Example missing_colon_raises :
  (_hibp_lookup "password" 5 (serving_env "rate limited") initial_state).2
  = Raise (ValueError "not enough values to unpack (expected 2, got 1)")
  /\ (assess_password "password" true (serving_env "rate limited") initial_state).2
     = Raise (ValueError "not enough values to unpack (expected 2, got 1)").
Proof. split; vm_compute; reflexivity. Qed.

(** ** White space and containment *)

Lemma char_lower_space (c : ascii) : char_isspace (char_lower c) = char_isspace c.
Proof. destruct c as [[] [] [] [] [] [] [] []]; reflexivity. Qed.




Lemma starts_nonspace_lower (s : string) : starts_nonspace (lower s) = starts_nonspace s.
Proof. destruct s as [|c s]; [reflexivity|]. simpl. rewrite char_lower_space. reflexivity. Qed.

Lemma ends_nonspace_lower (s : string) : ends_nonspace (lower s) = ends_nonspace s.
Proof.
  unfold lower. induction s as [|c s IH]; [reflexivity|].
  simpl. rewrite char_lower_space.
  destruct s as [|d s]; [reflexivity|]. exact IH.
Qed.

Lemma lstrip_starts (s : string) :
  truthy (lstrip s) = true -> starts_nonspace (lstrip s) = true.
Proof.
  induction s as [|c s IH]; [discriminate|].
  simpl. destruct (char_isspace c) eqn:Hc; [exact IH|].
  intros _. simpl. rewrite Hc. reflexivity.
Qed.

Lemma rstrip_ends (s : string) :
  truthy (rstrip s) = true -> ends_nonspace (rstrip s) = true.
Proof.
  induction s as [|c s IH]; [discriminate|].
  simpl. destruct (rstrip s) as [|d r] eqn:Hr.
  - destruct (char_isspace c) eqn:Hc; [discriminate|].
    intros _. simpl. rewrite Hc. reflexivity.
  - intros _. change (ends_nonspace (String d r) = true). apply IH. reflexivity.
Qed.

Lemma rstrip_starts (s : string) :
  starts_nonspace s = true -> starts_nonspace (rstrip s) = true.
Proof.
  destruct s as [|c s]; [discriminate|].
  simpl. intros Hc. destruct (rstrip s).
  - apply negb_true_iff in Hc. rewrite Hc. simpl. rewrite Hc. reflexivity.
  - exact Hc.
Qed.

Lemma truthy_rstrip (s : string) : truthy (rstrip s) = true -> truthy s = true.
Proof. destruct s; [discriminate | reflexivity]. Qed.

(** A non-empty result of [strip] begins and ends with a character that
    is not white space. *)
Lemma strip_trimmed (s : string) :
  truthy (strip s) = true ->
  starts_nonspace (strip s) = true /\ ends_nonspace (strip s) = true.
Proof.
  unfold strip. intros H. split.
  - apply rstrip_starts, lstrip_starts, truthy_rstrip, H.
  - apply rstrip_ends, H.
Qed.






(** ** The offline matcher *)

Lemma truthy_iff (s : string) : truthy s = true <-> s <> "".
Proof. destruct s; simpl; split; congruence. Qed.

Lemma truthy_lower (s : string) : truthy (lower s) = truthy s.
Proof. destruct s; reflexivity. Qed.

Lemma offline_breach_match_iff (password : string) (corpus : gset string) :
  _offline_breach_match password corpus = true
  <-> lower (strip password) ∈ corpus
      \/ exists entry,
           entry ∈ corpus /\ entry <> ""
           /\ str_in entry (lower (strip password)) = true.
Proof.
  unfold _offline_breach_match.
  destruct (bool_decide (lower (strip password) ∈ corpus)) eqn:Hin.
  - apply bool_decide_eq_true in Hin. tauto.
  - apply bool_decide_eq_false in Hin. rewrite existsb_exists. split.
    + intros (entry & Hentry & Hcond). right.
      apply andb_true_iff in Hcond as [Htruthy Hsub].
      exists entry. repeat split.
      * apply elem_of_elements, list_elem_of_In, Hentry.
      * apply truthy_iff, Htruthy.
      * exact Hsub.
    + intros [Hexact | (entry & Hentry & Hne & Hsub)]; [contradiction|].
      exists entry. split.
      * apply list_elem_of_In, elem_of_elements, Hentry.
      * rewrite (proj2 (truthy_iff entry) Hne), Hsub. reflexivity.
Qed.

Lemma file_entries_trimmed (text entry : string) :
  List.In entry (file_entries text) -> trimmed entry.
Proof.
  unfold file_entries. rewrite in_map_iff.
  intros (line & <- & Hline). apply filter_In in Hline as [_ Hkeep].
  apply andb_true_iff in Hkeep as [Htruthy _].
  destruct (strip_trimmed line Htruthy) as [Hs He].
  split; [rewrite starts_nonspace_lower | rewrite ends_nonspace_lower]; assumption.
Qed.

Lemma corpus_from_trimmed (env : Env) (paths : list string) :
  forall breached corpus : gset string,
    (forall entry, entry ∈ breached -> trimmed entry) ->
    corpus_from env paths breached = Ok corpus ->
    forall entry, entry ∈ corpus -> trimmed entry.
Proof.
  induction paths as [|path rest IH]; intros breached corpus Hb; simpl.
  - intros H. injection H as <-. exact Hb.
  - destruct (file_exists env path) as [[|]|e]; [|apply IH, Hb|discriminate].
    destruct (file_text env path) as [text|e]; [|discriminate].
    apply IH. intros e He. apply elem_of_union in He as [He|He]; [apply Hb, He|].
    apply elem_of_list_to_set, list_elem_of_In in He.
    apply (file_entries_trimmed _ _ He).
Qed.

(** Every entry of a loaded corpus begins and ends with a character that
    is not white space. *)
Lemma loaded_corpus_trimmed (env : Env) (corpus : gset string) (entry : string) :
  load_value env = Ok corpus -> entry ∈ corpus -> trimmed entry.
Proof.
  intros Hvalue. apply (corpus_from_trimmed env BREACHED_LIST_PATHS ∅ corpus); [|exact Hvalue].
  intros e He. apply not_elem_of_empty in He. destruct He.
Qed.




(** On a set the loader cannot return the two readings of the
    containment test differ: one whose entry ends with a space matches
    no password, since the test runs on the trimmed password. *)
Example padded_entry_is_outside_the_loader :
  _offline_breach_match "qwerty " {["qwerty "]} = false
  /\ str_in "qwerty " (lower "qwerty ") = true
  /\ forall env, load_value env <> Ok {["qwerty "]}.
Proof.
  split; [vm_compute; reflexivity|]. split; [reflexivity|].
  intros env Hvalue.
  destruct (loaded_corpus_trimmed env _ "qwerty " Hvalue) as [_ Hends].
  - apply elem_of_singleton. reflexivity.
  - discriminate Hends.
Qed.

(** * Further properties of the analyzer *)

(** ** More on strings *)

Lemma prefix_empty (s : string) : String.prefix "" s = true.
Proof. destruct s; reflexivity. Qed.

Lemma prefix_refl (s : string) : String.prefix s s = true.
Proof.
  induction s as [|c s IH]; [reflexivity|].
  simpl. destruct (ascii_dec c c); [exact IH | congruence].
Qed.

Lemma prefix_app (needle hay tail : string) :
  String.prefix needle hay = true -> String.prefix needle (hay ++ tail) = true.
Proof.
  revert hay. induction needle as [|a needle IH]; intros hay H; [apply prefix_empty|].
  destruct hay as [|c hay]; [discriminate|].
  rewrite app_cons. simpl in *. destruct (ascii_dec a c); [apply IH, H | discriminate].
Qed.

Lemma str_in_nil (needle : string) : str_in needle "" = String.prefix needle "".
Proof. simpl. apply orb_false_r. Qed.

Lemma str_in_app_r (needle hay tail : string) :
  str_in needle hay = true -> str_in needle (hay ++ tail) = true.
Proof.
  induction hay as [|c hay IH]; intros H.
  - rewrite str_in_nil in H. destruct needle; [|discriminate].
    destruct tail; reflexivity.
  - rewrite app_cons, str_in_cons. rewrite str_in_cons in H.
    apply orb_true_iff in H as [H|H].
    + rewrite <- app_cons, (prefix_app _ _ _ H). reflexivity.
    + rewrite (IH H). apply orb_true_r.
Qed.

Lemma str_in_app_l (needle head hay : string) :
  str_in needle hay = true -> str_in needle (head ++ hay) = true.
Proof.
  intros H. induction head as [|c head IH]; [exact H|].
  rewrite app_cons, str_in_cons, IH. apply orb_true_r.
Qed.

(** Containment survives any surrounding text. *)
Lemma str_in_extend (needle head hay tail : string) :
  str_in needle hay = true -> str_in needle (head ++ hay ++ tail) = true.
Proof. intros H. apply str_in_app_l, str_in_app_r, H. Qed.

Lemma str_in_refl (s : string) : str_in s s = true.
Proof.
  destruct s as [|c s]; [reflexivity|].
  rewrite str_in_cons, prefix_refl. reflexivity.
Qed.

Lemma str_in_length (needle hay : string) :
  str_in needle hay = true -> String.length needle <= String.length hay.
Proof.
  intros H. destruct (le_lt_dec (String.length needle) (String.length hay)) as [|Hlt];
    [assumption|].
  rewrite (str_in_short _ _ Hlt) in H. discriminate.
Qed.

Lemma prefix_split (needle hay : string) :
  String.prefix needle hay = true -> exists post, hay = needle ++ post.
Proof.
  revert hay. induction needle as [|a needle IH]; intros hay H.
  - exists hay. reflexivity.
  - destruct hay as [|c hay]; [discriminate|]. simpl in H.
    destruct (ascii_dec a c) as [->|]; [|discriminate].
    destruct (IH _ H) as [post ->]. exists post. reflexivity.
Qed.

Lemma str_in_split (needle hay : string) :
  str_in needle hay = true -> exists pre post, hay = pre ++ needle ++ post.
Proof.
  induction hay as [|c hay IH]; intros H.
  - rewrite str_in_nil in H. destruct (prefix_split _ _ H) as [post Hpost].
    exists "", post. exact Hpost.
  - rewrite str_in_cons in H. apply orb_true_iff in H as [H|H].
    + destruct (prefix_split _ _ H) as [post Hpost]. exists "", post. exact Hpost.
    + destruct (IH H) as (pre & post & ->). exists (String c pre), post. reflexivity.
Qed.

Lemma str_map_app (f : ascii -> ascii) (s t : string) :
  str_map f (s ++ t) = str_map f s ++ str_map f t.
Proof.
  induction s as [|c s IH]; [reflexivity|].
  rewrite app_cons. simpl. rewrite IH. reflexivity.
Qed.

Lemma str_map_map (f g : ascii -> ascii) (s : string) :
  str_map f (str_map g s) = str_map (fun c => f (g c)) s.
Proof. induction s as [|c s IH]; simpl; [reflexivity | rewrite IH; reflexivity]. Qed.

Lemma str_map_ext (f g : ascii -> ascii) (s : string) :
  (forall c, f c = g c) -> str_map f s = str_map g s.
Proof.
  intros Hfg. induction s as [|c s IH]; simpl; [reflexivity | rewrite Hfg, IH; reflexivity].
Qed.

Lemma char_lower_idem (c : ascii) : char_lower (char_lower c) = char_lower c.
Proof. destruct c as [[] [] [] [] [] [] [] []]; reflexivity. Qed.

Lemma lower_idem (s : string) : lower (lower s) = lower s.
Proof.
  unfold lower. rewrite str_map_map. apply str_map_ext, char_lower_idem.
Qed.

Lemma lstrip_id (s : string) : starts_nonspace s = true -> lstrip s = s.
Proof.
  destruct s as [|c s]; [discriminate|]. simpl. intros H.
  apply negb_true_iff in H. rewrite H. reflexivity.
Qed.

Lemma rstrip_id (s : string) : ends_nonspace s = true -> rstrip s = s.
Proof.
  induction s as [|c s IH]; [discriminate|].
  destruct s as [|d s].
  - simpl. intros H. apply negb_true_iff in H. rewrite H. reflexivity.
  - intros H. change (ends_nonspace (String d s) = true) in H.
    change (rstrip (String c (String d s)))
      with (match rstrip (String d s) with
            | "" => if char_isspace c then "" else String c ""
            | r => String c r
            end).
    rewrite (IH H). reflexivity.
Qed.

(** A string that begins and ends with a character that is not white
    space is left alone by [strip]. *)
Lemma strip_id (s : string) : trimmed s -> strip s = s.
Proof. intros [Hs He]. unfold strip. rewrite (lstrip_id s Hs). apply rstrip_id, He. Qed.

Lemma starts_nonspace_truthy (s : string) : starts_nonspace s = true -> truthy s = true.
Proof. destruct s; [discriminate | reflexivity]. Qed.

Lemma prefix_hash_lower (s : string) : String.prefix "#" (lower s) = String.prefix "#" s.
Proof.
  destruct s as [|c s]; [reflexivity|].
  unfold lower. simpl. rewrite !prefix_empty.
  destruct c as [[] [] [] [] [] [] [] []]; reflexivity.
Qed.

(** ** The loader *)

Lemma file_entries_iff (text entry : string) :
  List.In entry (file_entries text)
  <-> exists line,
        List.In line (splitlines text) /\ kept_line line = true
        /\ entry = lower (strip line).
Proof.
  unfold file_entries. rewrite in_map_iff. split.
  - intros (line & <- & Hline). apply filter_In in Hline as [Hin Hkeep]. eauto.
  - intros (line & Hin & Hkeep & ->). exists line. split; [reflexivity|].
    apply filter_In. auto.
Qed.

Lemma corpus_from_iff (env : Env) (paths : list string) :
  forall (breached corpus : gset string) (entry : string),
    corpus_from env paths breached = Ok corpus ->
    entry ∈ corpus
    <-> entry ∈ breached
        \/ exists path text line,
             List.In path paths /\ file_exists env path = Ok true
             /\ file_text env path = Ok text
             /\ List.In line (splitlines text)
             /\ kept_line line = true /\ entry = lower (strip line).
Proof.
  induction paths as [|path rest IH]; intros breached corpus entry; simpl.
  - intros H. injection H as <-. split; [auto|]. intros [H|(? & ? & ? & [] & _)]. exact H.
  - destruct (file_exists env path) as [[|]|e] eqn:Hex; [| |discriminate].
    + destruct (file_text env path) as [text|e] eqn:Htext; [|discriminate].
      intros Hrun. rewrite (IH _ _ _ Hrun).
      rewrite elem_of_union, elem_of_list_to_set, list_elem_of_In, file_entries_iff.
      split.
      * intros [[H|(line & Hin & Hkeep & ->)]|(p & t & line & Hp & Hrest)].
        -- left. exact H.
        -- right. exists path, text, line. auto 10.
        -- right. exists p, t, line. tauto.
      * intros [H|(p & t & line & [<-|Hp] & Hpex & Hptext & Hin & Hkeep & ->)].
        -- left. left. exact H.
        -- left. right. exists line. rewrite Htext in Hptext. injection Hptext as <-. auto.
        -- right. exists p, t, line. auto 10.
    + intros Hrun. rewrite (IH _ _ _ Hrun). split.
      * intros [H|(p & t & line & Hp & Hrest)]; [left; exact H|].
        right. exists p, t, line. tauto.
      * intros [H|(p & t & line & [<-|Hp] & Hpex & Hrest)]; [left; exact H| |].
        -- congruence.
        -- right. exists p, t, line. auto.
Qed.

(** When the loader returns, it got past every path. *)
Lemma corpus_from_passable (env : Env) (paths : list string) :
  forall breached corpus : gset string,
    corpus_from env paths breached = Ok corpus ->
    forall path, List.In path paths -> passable env path.
Proof.
  induction paths as [|path rest IH]; intros breached corpus; simpl; [intros _ ? []|].
  destruct (file_exists env path) as [[|]|e] eqn:Hex; [| |discriminate].
  - destruct (file_text env path) as [text|e] eqn:Htext; [|discriminate].
    intros Hrun p [<-|Hp]; [right; eauto | apply (IH _ _ Hrun p Hp)].
  - intros Hrun p [<-|Hp]; [left; exact Hex | apply (IH _ _ Hrun p Hp)].
Qed.

(** When the loader raises, it does so at the first path it cannot get
    past. *)
Lemma corpus_from_fails (env : Env) (paths : list string) :
  forall (breached : gset string) (e : exn),
    corpus_from env paths breached = Raise e ->
    exists pre path post,
      paths = (pre ++ path :: post)%list
      /\ (forall p, List.In p pre -> passable env p)
      /\ fails_at env path e.
Proof.
  induction paths as [|path rest IH]; intros breached e; simpl; [discriminate|].
  destruct (file_exists env path) as [[|]|e'] eqn:Hex.
  - destruct (file_text env path) as [text|e'] eqn:Htext.
    + intros Hrun. destruct (IH _ _ Hrun) as (pre & p & post & -> & Hpre & Hfail).
      exists (path :: pre), p, post. split; [reflexivity|]. split; [|exact Hfail].
      intros q [<-|Hq]; [right; eauto | apply Hpre, Hq].
    + intros H. injection H as ->. exists [], path, rest.
      split; [reflexivity|]. split; [intros ? []|]. right. auto.
  - intros Hrun. destruct (IH _ _ Hrun) as (pre & p & post & -> & Hpre & Hfail).
    exists (path :: pre), p, post. split; [reflexivity|]. split; [|exact Hfail].
    intros q [<-|Hq]; [left; exact Hex | apply Hpre, Hq].
  - intros H. injection H as ->. exists [], path, rest.
    split; [reflexivity|]. split; [intros ? []|]. left. exact Hex.
Qed.

Lemma load_paths_events (env : Env) (paths : list string) :
  NoDup paths ->
  forall (breached : gset string) (st : St),
  exists events,
    trace (load_paths paths breached env st).1 = (trace st ++ events)%list
    /\ (forall path, List.In (PathExists path) events -> List.In path paths)
    /\ (forall path,
           List.In (ReadText path) events ->
           List.In path paths /\ file_exists env path = Ok true)
    /\ (forall e, List.In e events ->
                  exists path, e = PathExists path \/ e = ReadText path)
    /\ (forall corpus,
           (load_paths paths breached env st).2 = Ok corpus ->
           forall path,
             List.In path paths ->
             List.In (PathExists path) events
             /\ (file_exists env path = Ok true -> List.In (ReadText path) events))
    /\ (forall e,
           (load_paths paths breached env st).2 = Raise e ->
           exists pre path post,
             paths = (pre ++ path :: post)%list
             /\ fails_at env path e
             /\ List.In (PathExists path) events
             /\ forall later,
                  List.In later post ->
                  ~ List.In (PathExists later) events /\ ~ List.In (ReadText later) events).
Proof.
  induction paths as [|path rest IH]; intros Hnodup breached st.
  - exists []. cbn. rewrite app_nil_r. split; [reflexivity|].
    split; [intros ? []|]. split; [intros ? []|]. split; [intros ? []|].
    split; [intros ? _ ? [] | intros ? H; discriminate H].
  - apply NoDup_cons in Hnodup as [Hfresh Hnodup].
    assert (Hlater : forall later, List.In later rest -> later <> path).
    { intros later Hin ->. apply Hfresh, list_elem_of_In, Hin. }
    cbn [load_paths]. unfold mbind, M_bind, path_exists.
    destruct (file_exists env path) as [[|]|e] eqn:Hex; cbn [negb].
    + unfold read_text. destruct (file_text env path) as [text|e] eqn:Htext.
      * destruct (IH Hnodup (breached ∪ list_to_set (file_entries text))
                     (log (ReadText path) (log (PathExists path) st)))
          as (events & Htrace & Hexists & Hread & Honly & Hall & Hstop).
        exists (PathExists path :: ReadText path :: events).
        split; [|split; [|split; [|split; [|split]]]].
        -- rewrite Htrace. unfold log, append. simpl. rewrite <- !app_assoc. reflexivity.
        -- intros p [H|[H|H]]; [left; congruence | discriminate | right; apply Hexists, H].
        -- intros p [H|[H|H]];
             [discriminate | injection H as <-; split; [left; reflexivity | exact Hex] |].
           destruct (Hread p H). split; [right|]; assumption.
        -- intros e [<-|[<-|H]]; eauto.
        -- intros corpus Hrun p [<-|Hp].
           ++ split; [left; reflexivity | intros _; right; left; reflexivity].
           ++ destruct (Hall corpus Hrun p Hp) as [H1 H2].
              split; [right; right; exact H1 | intros H; right; right; apply H2, H].
        -- intros e Hrun.
           destruct (Hstop e Hrun) as (pre & p & post & -> & Hfail & Hasked & Hpost).
           exists (path :: pre), p, post.
           split; [reflexivity|]. split; [exact Hfail|].
           split; [right; right; exact Hasked|].
           intros later Hin. destruct (Hpost later Hin) as [H1 H2].
           assert (Hne : later <> path).
           { apply Hlater, in_or_app. right. right. exact Hin. }
           split; intros [H|[H|H]]; try discriminate H; try contradiction;
             injection H as ->; apply Hne; reflexivity.
      * exists [PathExists path; ReadText path].
        split; [|split; [|split; [|split; [|split]]]].
        -- unfold log, append. simpl. rewrite <- !app_assoc. reflexivity.
        -- intros p [H|[H|[]]]; [left; congruence | discriminate].
        -- intros p [H|[H|[]]];
             [discriminate | injection H as <-; split; [left; reflexivity | exact Hex]].
        -- intros e' [<-|[<-|[]]]; eauto.
        -- intros corpus H. discriminate H.
        -- intros e' H. injection H as <-. exists [], path, rest.
           split; [reflexivity|]. split; [right; auto|]. split; [left; reflexivity|].
           intros later Hin. specialize (Hlater later Hin).
           split; intros [H|[H|[]]]; try discriminate H;
             injection H as ->; apply Hlater; reflexivity.
    + destruct (IH Hnodup breached (log (PathExists path) st))
        as (events & Htrace & Hexists & Hread & Honly & Hall & Hstop).
      exists (PathExists path :: events).
      split; [|split; [|split; [|split; [|split]]]].
      * rewrite Htrace. unfold log, append. simpl. rewrite <- !app_assoc. reflexivity.
      * intros p [H|H]; [left; congruence | right; apply Hexists, H].
      * intros p [H|H]; [discriminate|]. destruct (Hread p H). split; [right|]; assumption.
      * intros e [<-|H]; eauto.
      * intros corpus Hrun p [<-|Hp].
        -- split; [left; reflexivity | congruence].
        -- destruct (Hall corpus Hrun p Hp) as [H1 H2].
           split; [right; exact H1 | intros H; right; apply H2, H].
      * intros e Hrun.
        destruct (Hstop e Hrun) as (pre & p & post & -> & Hfail & Hasked & Hpost).
        exists (path :: pre), p, post.
        split; [reflexivity|]. split; [exact Hfail|]. split; [right; exact Hasked|].
        intros later Hin. destruct (Hpost later Hin) as [H1 H2].
        assert (Hne : later <> path).
        { apply Hlater, in_or_app. right. right. exact Hin. }
        split; intros [H|H]; try discriminate H; try contradiction;
          injection H as ->; apply Hne; reflexivity.
    + exists [PathExists path].
      split; [|split; [|split; [|split; [|split]]]].
      * reflexivity.
      * intros p [H|[]]. left. congruence.
      * intros p [H|[]]. discriminate.
      * intros e' [<-|[]]. eauto.
      * intros corpus H. discriminate H.
      * intros e' H. injection H as <-. exists [], path, rest.
        split; [reflexivity|]. split; [left; exact Hex|]. split; [left; reflexivity|].
        intros later Hin. specialize (Hlater later Hin).
        split; intros [H|[]]; try discriminate H;
          injection H as ->; apply Hlater; reflexivity.
Qed.

Lemma breached_list_paths_distinct : NoDup BREACHED_LIST_PATHS.
Proof.
  apply (bool_decide_unpack (NoDup BREACHED_LIST_PATHS)). vm_compute. exact I.
Qed.

(** X1.  The loader goes through the two corpus paths in order.  It
    returns when it gets past both (each file is absent, or present and
    readable), and its set then holds exactly the case-folded, trimmed
    forms of the lines that are neither blank nor comments, over the
    files that exist.  It raises at the first path it cannot get past
    ([exists()] raises, or the file is present and reading it raises),
    with the exception met there. *)
Theorem load_breached_passwords_membership (env : Env) (st : St) :
  match (_load_breached_passwords env st).2 with
  | Ok corpus =>
      (forall path, List.In path BREACHED_LIST_PATHS -> passable env path)
      /\ forall entry,
           entry ∈ corpus
           <-> exists path text line,
                 List.In path BREACHED_LIST_PATHS /\ file_exists env path = Ok true
                 /\ file_text env path = Ok text
                 /\ List.In line (splitlines text)
                 /\ kept_line line = true /\ entry = lower (strip line)
  | Raise e =>
      exists pre path post,
        BREACHED_LIST_PATHS = (pre ++ path :: post)%list
        /\ (forall p, List.In p pre -> passable env p)
        /\ fails_at env path e
  end.
Proof.
  destruct (load_breached_passwords_run env st) as (st' & Hrun & _).
  rewrite Hrun. cbn [snd]. unfold load_value.
  destruct (corpus_from env BREACHED_LIST_PATHS ∅) as [corpus|e] eqn:Hvalue.
  - split; [apply (corpus_from_passable _ _ _ _ Hvalue)|].
    intros entry. rewrite (corpus_from_iff _ _ _ _ entry Hvalue). split.
    + intros [H|H]; [|exact H]. apply not_elem_of_empty in H. destruct H.
    + auto.
  - apply (corpus_from_fails _ _ _ _ Hvalue).
Qed.

(** An undecodable first file, or a data directory that cannot be
    searched, makes the loader and the assessment raise. *)
Example unreadable_corpus_raises :
  (_load_breached_passwords undecodable_env initial_state).2 = Raise UnicodeDecodeError
  /\ (assess_password "hunter2" false undecodable_env initial_state).2
     = Raise UnicodeDecodeError
  /\ trace (assess_password "hunter2" true undecodable_env initial_state).1
     = [PathExists "data/breached_passwords.txt"; ReadText "data/breached_passwords.txt"]
  /\ (assess_password "hunter2" false forbidden_env initial_state).2
     = Raise (OSError "Permission denied")
  /\ trace (assess_password "hunter2" true forbidden_env initial_state).1
     = [PathExists "data/breached_passwords.txt"].
Proof. repeat apply conj; vm_compute; reflexivity. Qed.

(** X2.  The loader asks only whether corpus paths exist and reads only
    corpus files of which [exists()] has said yes; it sends nothing and
    draws nothing.  When it returns, it has asked about both paths and
    read every file that exists: a missing file is skipped.  When it
    raises, it has asked about the path at which it fails and has
    neither asked about nor read any path after it. *)
Theorem load_breached_passwords_reads_existing_files (env : Env) (st : St) :
  exists events,
    trace (_load_breached_passwords env st).1 = (trace st ++ events)%list
    /\ drawn (_load_breached_passwords env st).1 = drawn st
    /\ (forall path, List.In (PathExists path) events -> List.In path BREACHED_LIST_PATHS)
    /\ (forall path,
           List.In (ReadText path) events ->
           List.In path BREACHED_LIST_PATHS /\ file_exists env path = Ok true)
    /\ (forall e, List.In e events ->
                  exists path, e = PathExists path \/ e = ReadText path)
    /\ (forall corpus,
           (_load_breached_passwords env st).2 = Ok corpus ->
           forall path,
             List.In path BREACHED_LIST_PATHS ->
             List.In (PathExists path) events
             /\ (file_exists env path = Ok true -> List.In (ReadText path) events))
    /\ (forall e,
           (_load_breached_passwords env st).2 = Raise e ->
           exists pre path post,
             BREACHED_LIST_PATHS = (pre ++ path :: post)%list
             /\ fails_at env path e
             /\ List.In (PathExists path) events
             /\ forall later,
                  List.In later post ->
                  ~ List.In (PathExists later) events /\ ~ List.In (ReadText later) events).
Proof.
  destruct (load_paths_events env BREACHED_LIST_PATHS breached_list_paths_distinct ∅ st)
    as (events & Htrace & Hexists & Hread & Honly & Hall & Hstop).
  destruct (load_breached_passwords_run env st) as (st' & Hrun & _ & Hdrawn).
  exists events. split; [exact Htrace|]. split; [rewrite Hrun; exact Hdrawn|].
  auto 10.
Qed.

Lemma kept_line_entry (line : string) :
  kept_line line = true ->
  lower (strip line) <> ""
  /\ lower (lower (strip line)) = lower (strip line)
  /\ strip (lower (strip line)) = lower (strip line)
  /\ startswith (lower (strip line)) "#" = false.
Proof.
  unfold kept_line. intros H. apply andb_true_iff in H as [Htruthy Hhash].
  destruct (strip_trimmed line Htruthy) as [Hs He].
  split; [|split; [|split]].
  - apply truthy_iff. rewrite truthy_lower. exact Htruthy.
  - apply lower_idem.
  - apply strip_id. split;
      [rewrite starts_nonspace_lower | rewrite ends_nonspace_lower]; assumption.
  - unfold startswith in *. rewrite prefix_hash_lower. apply negb_true_iff, Hhash.
Qed.

(** X3.  Every entry of a loaded corpus is in normal form: it is not
    empty, it is its own lower-case form, it carries no surrounding white
    space, and it does not begin with the comment mark. *)
Theorem loaded_entries_are_normalised (env : Env) (corpus : gset string) (entry : string) :
  load_value env = Ok corpus ->
  entry ∈ corpus ->
  entry <> "" /\ lower entry = entry /\ strip entry = entry
  /\ startswith entry "#" = false.
Proof.
  intros Hvalue. rewrite (corpus_from_iff _ _ _ _ entry Hvalue).
  intros [H|(path & text & line & _ & _ & _ & _ & Hkeep & ->)].
  - apply not_elem_of_empty in H. destruct H.
  - apply kept_line_entry, Hkeep.
Qed.

Lemma loaded_entries_are_normalised_witness :
  "password" <> "" /\ lower "password" = "password" /\ strip "password" = "password"
  /\ startswith "password" "#" = false.
Proof.
  apply (loaded_entries_are_normalised second_file_env {["password"]} "password").
  - vm_compute. reflexivity.
  - apply elem_of_singleton. reflexivity.
Defined.

(** ** The offline matcher on growing corpora *)

Lemma offline_breach_match_subset (password : string) (corpus1 corpus2 : gset string) :
  corpus1 ⊆ corpus2 ->
  _offline_breach_match password corpus1 = true ->
  _offline_breach_match password corpus2 = true.
Proof.
  intros Hsub. rewrite !offline_breach_match_iff.
  intros [Hexact|(entry & Hentry & Hne & Hin)].
  - left. apply Hsub, Hexact.
  - right. exists entry. split; [apply Hsub, Hentry | auto].
Qed.

(** X4.  A password that matches a corpus matches every larger corpus. *)
Theorem offline_breach_match_monotone (password : string) (corpus1 corpus2 : gset string) :
  corpus1 ⊆ corpus2 ->
  _offline_breach_match password corpus1 = true ->
  _offline_breach_match password corpus2 = true.
Proof. apply offline_breach_match_subset. Qed.

Lemma offline_breach_match_monotone_witness :
  _offline_breach_match "Hunter2!" {["hunter"; "letmein"]} = true.
Proof.
  apply (offline_breach_match_monotone "Hunter2!" {["hunter"]} {["hunter"; "letmein"]}).
  - set_solver.
  - vm_compute. reflexivity.
Defined.

Lemma assessment_score_matched (password : string) (corpus : gset string)
    (online : option (bool * option Z)) (suggestions : list string) :
  _offline_breach_match password corpus = true ->
  (0.3 <=? risk_score (assessment_of password corpus online suggestions))%float = true.
Proof.
  intros Hmatch. unfold assessment_of. cbn [risk_score]. rewrite Hmatch.
  unfold online_step, offline_step.
  destruct online as [[[] count]|]; [ | destruct (bool_decide (count = Some 0%Z)) | ];
    case_signals password; reflexivity.
Qed.

Lemma assessment_reasons_matched (password : string) (corpus : gset string)
    (online : option (bool * option Z)) (suggestions : list string) :
  _offline_breach_match password corpus = true ->
  List.In "Matches an offline breached password pattern"
          (reasons (assessment_of password corpus online suggestions)).
Proof.
  intros Hmatch. unfold assessment_of. cbn [reasons]. rewrite Hmatch.
  unfold offline_step, online_step. cbn [fst snd].
  destruct online as [[[] count]|]; [ | destruct (bool_decide (count = Some 0%Z)) | ];
    cbn [fst snd]; unfold append; rewrite ?in_app_iff; simpl; tauto.
Qed.

(** X5.  When a kept line of an existing, readable corpus file,
    case-folded and trimmed, occurs in the case-folded, trimmed password
    (in particular when it equals it), the assessment is marked breached
    offline, gives the offline reason, and has a risk score of at least
    0.3; the call returns an assessment unless the loader raised on the
    other file, or the lookup raised. *)
Theorem corpus_line_in_password_is_breached
    (password : string) (include_hibp : bool) (env : Env) (st : St)
    (path text line : string) :
  List.In path BREACHED_LIST_PATHS ->
  file_exists env path = Ok true ->
  file_text env path = Ok text ->
  List.In line (splitlines text) ->
  kept_line line = true ->
  str_in (lower (strip line)) (lower (strip password)) = true ->
  match (assess_password password include_hibp env st).2 with
  | Ok a =>
      breached_offline a = true
      /\ List.In "Matches an offline breached password pattern" (reasons a)
      /\ (0.3 <=? risk_score a)%float = true
  | Raise e =>
      load_value env = Raise e
      \/ (include_hibp = true /\ lookup_value password 5 env = Raise e)
  end.
Proof.
  intros Hpath Hex Htext Hline Hkeep Hin.
  assert (Hne : lower (strip line) <> "") by apply (kept_line_entry line Hkeep).
  assert (Hpw : password <> "").
  { intros ->. apply str_in_length in Hin. simpl in Hin.
    destruct (lower (strip line)); [congruence | simpl in Hin; lia]. }
  destruct (assess_password_run password include_hibp env st Hpw) as (st' & sg & Hrun & _).
  rewrite Hrun. cbn [snd].
  destruct (checks_value password include_hibp env) as [[corpus online]|e] eqn:Hchecks;
    [|apply (checks_value_raise _ _ _ _ Hchecks)].
  apply checks_value_ok in Hchecks as [Hvalue _].
  assert (Hentry : lower (strip line) ∈ corpus).
  { apply (corpus_from_iff _ _ _ _ _ Hvalue). right. exists path, text, line. auto 10. }
  assert (Hmatch : _offline_breach_match password corpus = true).
  { apply offline_breach_match_iff. right. exists (lower (strip line)). auto. }
  split; [exact Hmatch|]. split;
    [apply assessment_reasons_matched | apply assessment_score_matched]; exact Hmatch.
Qed.

Lemma corpus_line_in_password_is_breached_witness :
  match (assess_password "MyPassword2024" false second_file_env initial_state).2 with
  | Ok a =>
      breached_offline a = true
      /\ List.In "Matches an offline breached password pattern" (reasons a)
      /\ (0.3 <=? risk_score a)%float = true
  | Raise e =>
      load_value second_file_env = Raise e
      \/ (false = true /\ lookup_value "MyPassword2024" 5 second_file_env = Raise e)
  end.
Proof.
  apply (corpus_line_in_password_is_breached "MyPassword2024" false second_file_env
           initial_state "data/rockyou.txt"
           ("# leaked" ++ String "010" "  PassWord ") "  PassWord ").
  - right. left. reflexivity.
  - reflexivity.
  - reflexivity.
  - right. left. reflexivity.
  - reflexivity.
  - reflexivity.
Defined.

(** ** The structural checks *)

Lemma length_substring (s : string) :
  forall n m, n + m <= String.length s -> String.length (String.substring n m s) = m.
Proof.
  induction s as [|c s IH]; intros [|n] [|m] H; simpl in *; try reflexivity; try lia.
  - rewrite (IH 0 m); [reflexivity | lia].
  - apply (IH n 0). lia.
  - apply (IH n (S m)). lia.
Qed.

(** X6.  A sequence found in a password is found in every password that
    contains it. *)
Theorem contains_sequence_extend (head password tail : string) :
  _contains_sequence password = true ->
  _contains_sequence (head ++ password ++ tail) = true.
Proof.
  unfold _contains_sequence. rewrite !existsb_exists.
  intros (seq_ & Hseq & H). exists seq_. split; [exact Hseq|].
  rewrite existsb_exists in *. destruct H as (i & Hi & H).
  exists i. split; [exact Hi | apply str_in_extend, H].
Qed.

Lemma contains_sequence_extend_witness :
  _contains_sequence ("my-" ++ "xyz" ++ "-key") = true.
Proof.
  apply (contains_sequence_extend "my-" "xyz" "-key"). vm_compute. reflexivity.
Defined.

(** X7.  No password of fewer than three characters holds a sequence. *)
Theorem contains_sequence_short (password : string) :
  String.length password < 3 -> _contains_sequence password = false.
Proof.
  intros Hlen. destruct (_contains_sequence password) eqn:E; [|reflexivity].
  unfold _contains_sequence in E. apply existsb_exists in E as (seq_ & _ & E).
  apply existsb_exists in E as (i & Hi & E).
  apply in_seq in Hi. apply str_in_length in E.
  rewrite length_substring in E by lia. lia.
Qed.

Lemma contains_sequence_short_witness : _contains_sequence "ab" = false.
Proof. apply (contains_sequence_short "ab"). simpl. lia. Defined.

Lemma str_in_first_char (c : ascii) (rest hay : string) :
  str_in (String c rest) hay = true -> any_char (Ascii.eqb c) hay = true.
Proof.
  induction hay as [|b hay IH]; [discriminate|].
  rewrite str_in_cons. simpl. intros H. apply orb_true_iff in H as [H|H].
  - destruct (ascii_dec c b) as [->|]; [|discriminate].
    rewrite Ascii.eqb_refl. reflexivity.
  - rewrite (IH H). apply orb_true_r.
Qed.

Lemma char_lower_not_upper (c : ascii) : char_isupper (char_lower c) = false.
Proof. destruct c as [[] [] [] [] [] [] [] []]; reflexivity. Qed.

Lemma lower_has_no_upper (c : ascii) (s : string) :
  any_char (Ascii.eqb c) (lower s) = true -> char_isupper c = false.
Proof.
  unfold lower. induction s as [|b s IH]; [discriminate|].
  simpl. intros H. apply orb_true_iff in H as [H|H]; [|exact (IH H)].
  apply Ascii.eqb_eq in H. subst c. apply char_lower_not_upper.
Qed.

(** X8.  On a lower-cased password, as [assess_password] passes it, no
    window of the upper-case alphabet is ever found: a run such as "ABC"
    is caught by the lower-case alphabet alone. *)
Theorem uppercase_alphabet_never_matches (password : string) :
  existsb (fun i => str_in (String.substring i 3 ascii_uppercase) (lower password))
          (List.seq 0 (String.length ascii_uppercase - 2))
  = false.
Proof.
  destruct (existsb _ _) eqn:E; [|reflexivity].
  apply existsb_exists in E as (i & Hi & E). exfalso.
  simpl in Hi.
  repeat (destruct Hi as [<-|Hi];
          [apply str_in_first_char, lower_has_no_upper in E; discriminate E|]).
  exact Hi.
Qed.

Lemma list_ascii_of_string_app (s t : string) :
  list_ascii_of_string (s ++ t) = (list_ascii_of_string s ++ list_ascii_of_string t)%list.
Proof.
  induction s as [|c s IH]; [reflexivity|].
  rewrite app_cons. simpl. rewrite IH. reflexivity.
Qed.

Lemma length_list_ascii_of_string (s : string) :
  List.length (list_ascii_of_string s) = String.length s.
Proof. induction s as [|c s IH]; simpl; [reflexivity | rewrite IH; reflexivity]. Qed.

(** X9.  A character three times in a row, anywhere in a password, is
    reported as repetition. *)
Theorem contains_repetition_triple (head : string) (c : ascii) (tail : string) :
  _contains_repetition (head ++ repeat_char c 3 ++ tail) = true.
Proof.
  unfold _contains_repetition.
  destruct (_ <=? _)%nat; [reflexivity|].
  apply existsb_exists. exists c. split.
  - apply list_elem_of_In, elem_of_elements, elem_of_list_to_set, list_elem_of_In.
    rewrite !list_ascii_of_string_app. apply in_or_app. right. simpl. left. reflexivity.
  - apply str_in_extend, str_in_refl.
Qed.

(** X10.  A password of at least two characters, all different, is never
    reported as repetition. *)
Theorem distinct_characters_no_repetition (password : string) :
  NoDup (list_ascii_of_string password) ->
  2 <= String.length password ->
  _contains_repetition password = false.
Proof.
  intros Hnodup Hlen. unfold _contains_repetition, char_set.
  rewrite (size_list_to_set _ Hnodup), length_list_ascii_of_string.
  assert (Hsize : (String.length password <=? Nat.max 1 (String.length password / 4))%nat
                  = false).
  { apply Nat.leb_gt.
    assert (String.length password / 4 < String.length password).
    { apply Nat.div_lt; lia. }
    lia. }
  rewrite Hsize.
  destruct (existsb _ _) eqn:E; [|reflexivity]. exfalso.
  apply existsb_exists in E as (c & _ & E).
  apply str_in_split in E as (pre & post & ->).
  rewrite !list_ascii_of_string_app in Hnodup. simpl in Hnodup.
  apply NoDup_app in Hnodup as (_ & _ & Hnodup).
  apply NoDup_cons in Hnodup as [Hnotin _].
  apply Hnotin. left.
Qed.

Lemma distinct_characters_no_repetition_witness : _contains_repetition "Tr0ub4d&" = false.
Proof.
  apply (distinct_characters_no_repetition "Tr0ub4d&").
  - apply (bool_decide_unpack (NoDup (list_ascii_of_string "Tr0ub4d&"))).
    vm_compute. exact I.
  - simpl. lia.
Defined.

Lemma lower_app (s t : string) : lower (s ++ t) = lower s ++ lower t.
Proof. apply str_map_app. Qed.

(** X11.  A password in which a common word is found, plainly or behind
    the substitutions, stays found whatever is put around it. *)
Theorem check_substitutions_extend (head password tail : string) :
  _check_substitutions password = true ->
  _check_substitutions (head ++ password ++ tail) = true.
Proof.
  unfold _check_substitutions. cbv zeta. rewrite !existsb_exists.
  intros (word & Hword & H). exists word. split; [exact Hword|].
  rewrite !lower_app, !str_map_app. apply str_in_extend, H.
Qed.

Lemma check_substitutions_extend_witness :
  _check_substitutions ("2024-" ++ "P@ssw0rd" ++ "-x9") = true.
Proof.
  apply (check_substitutions_extend "2024-" "P@ssw0rd" "-x9"). vm_compute. reflexivity.
Defined.

(** ** Order of scores and labels *)

Lemma SFleb_trans_from_positive (mc : positive) (ec : Z) (x y : spec_float) :
  SFleb (S754_finite false mc ec) x = true ->
  SFleb x y = true ->
  SFleb (S754_finite false mc ec) y = true.
Proof.
  unfold SFleb.
  destruct x as [sx|sx| |sx mx ex], y as [sy|sy| |sy my ey]; cbn [SFcompare];
    try destruct sx; try destruct sy; try discriminate; try reflexivity.
  rewrite !Pos.compare_cont_spec. cbn [Pos.switch_Eq].
  destruct (Z.compare_spec ec ex), (Z.compare_spec ex ey), (Z.compare_spec ec ey);
    try discriminate; try reflexivity; try lia; subst;
    destruct (Pos.compare_spec mc mx), (Pos.compare_spec mx my), (Pos.compare_spec mc my);
    try discriminate; try reflexivity; try lia.
Qed.

Lemma leb_trans_075 (x y : float) :
  (0.75 <=? x)%float = true -> (x <=? y)%float = true -> (0.75 <=? y)%float = true.
Proof.
  rewrite !leb_spec.
  change (Prim2SF 0.75) with (S754_finite false 6755399441055744 (-53)).
  apply SFleb_trans_from_positive.
Qed.

Lemma leb_trans_045 (x y : float) :
  (0.45 <=? x)%float = true -> (x <=? y)%float = true -> (0.45 <=? y)%float = true.
Proof.
  rewrite !leb_spec.
  change (Prim2SF 0.45) with (S754_finite false 8106479329266893 (-54)).
  apply SFleb_trans_from_positive.
Qed.

Lemma format_risk_label_rank_le (score1 score2 : float) :
  (score1 <=? score2)%float = true ->
  label_rank (_format_risk_label score1) <= label_rank (_format_risk_label score2).
Proof.
  intros Hle. unfold _format_risk_label.
  destruct (0.75 <=? score1)%float eqn:H75.
  - rewrite (leb_trans_075 _ _ H75 Hle). reflexivity.
  - destruct (0.45 <=? score1)%float eqn:H45.
    + rewrite (leb_trans_045 _ _ H45 Hle).
      destruct (0.75 <=? score2)%float; cbn; lia.
    + destruct (0.75 <=? score2)%float; [cbn; lia|].
      destruct (0.45 <=? score2)%float; cbn; lia.
Qed.

(** X12.  The label never goes down when the score goes up. *)
Theorem format_risk_label_monotone (score1 score2 : float) :
  (score1 <=? score2)%float = true ->
  label_rank (_format_risk_label score1) <= label_rank (_format_risk_label score2).
Proof. apply format_risk_label_rank_le. Qed.

Lemma format_risk_label_monotone_witness :
  label_rank (_format_risk_label 0.5) <= label_rank (_format_risk_label 0.8).
Proof. apply (format_risk_label_monotone 0.5 0.8). reflexivity. Defined.

Lemma assessment_score_offline_mono (password : string) (corpus1 corpus2 : gset string)
    (online : option (bool * option Z)) (sg1 sg2 : list string) :
  (_offline_breach_match password corpus1 = true ->
   _offline_breach_match password corpus2 = true) ->
  (risk_score (assessment_of password corpus1 online sg1)
   <=? risk_score (assessment_of password corpus2 online sg2))%float = true.
Proof.
  intros Hmono. unfold assessment_of. cbn [risk_score]. unfold online_step, offline_step.
  destruct (_offline_breach_match password corpus1);
    [rewrite (Hmono eq_refl) | destruct (_offline_breach_match password corpus2)];
    (destruct online as [[[] count]|]; [ | destruct (bool_decide (count = Some 0%Z)) | ]);
    case_signals password; reflexivity.
Qed.

Lemma assessment_label (password : string) (corpus : gset string)
    (online : option (bool * option Z)) (sg : list string) :
  label (assessment_of password corpus online sg)
  = _format_risk_label (risk_score (assessment_of password corpus online sg)).
Proof. reflexivity. Qed.

(** X13.  Growing the corpus never lowers an assessment: with the same
    password and the same online outcome, a loaded corpus that contains
    another gives a risk score and a label at least as high, and keeps
    the offline mark. *)
Theorem larger_corpus_never_lowers_score
    (password : string) (include_hibp : bool) (env1 env2 : Env) (st1 st2 : St)
    (corpus1 corpus2 : gset string) :
  password <> "" ->
  load_value env1 = Ok corpus1 ->
  load_value env2 = Ok corpus2 ->
  corpus1 ⊆ corpus2 ->
  (include_hibp = true ->
   urlopen env1 (range_request (hash_prefix password)) 5
   = urlopen env2 (range_request (hash_prefix password)) 5) ->
  match (assess_password password include_hibp env1 st1).2,
        (assess_password password include_hibp env2 st2).2 with
  | Ok a1, Ok a2 =>
      (risk_score a1 <=? risk_score a2)%float = true
      /\ label_rank (label a1) <= label_rank (label a2)
      /\ (breached_offline a1 = true -> breached_offline a2 = true)
  | Raise e1, Raise e2 => e1 = e2
  | _, _ => False
  end.
Proof.
  intros Hne Hvalue1 Hvalue2 Hsub Hnet.
  destruct (assess_password_run_loaded password include_hibp env1 st1 corpus1 Hne Hvalue1)
    as (? & sg1 & Hrun1 & _).
  destruct (assess_password_run_loaded password include_hibp env2 st2 corpus2 Hne Hvalue2)
    as (? & sg2 & Hrun2 & _).
  rewrite Hrun1, Hrun2. cbn [snd].
  assert (Honline : online_value password include_hibp env1
                    = online_value password include_hibp env2).
  { unfold online_value, lookup_value. destruct include_hibp; [|reflexivity].
    rewrite (Hnet eq_refl). reflexivity. }
  rewrite Honline.
  destruct (online_value password include_hibp env2) as [online|e]; [|reflexivity].
  pose proof (offline_breach_match_subset password _ _ Hsub) as Hmono.
  pose proof (assessment_score_offline_mono password _ _ online sg1 sg2 Hmono) as Hscore.
  split; [exact Hscore|]. split; [|exact Hmono].
  rewrite !assessment_label. apply format_risk_label_rank_le, Hscore.
Qed.

Lemma larger_corpus_never_lowers_score_witness :
  match (assess_password "MyPassword2024" false offline_env initial_state).2,
        (assess_password "MyPassword2024" false second_file_env initial_state).2 with
  | Ok a1, Ok a2 =>
      (risk_score a1 <=? risk_score a2)%float = true
      /\ label_rank (label a1) <= label_rank (label a2)
      /\ (breached_offline a1 = true -> breached_offline a2 = true)
  | Raise e1, Raise e2 => e1 = e2
  | _, _ => False
  end.
Proof.
  apply (larger_corpus_never_lowers_score "MyPassword2024" false offline_env second_file_env
           initial_state initial_state ∅ {["password"]}).
  - discriminate.
  - reflexivity.
  - vm_compute. reflexivity.
  - intros entry H. apply not_elem_of_empty in H. destruct H.
  - discriminate.
Defined.

Lemma assessment_score_online_mono (password : string) (corpus : gset string)
    (online : option (bool * option Z)) (sg1 sg2 : list string) :
  (risk_score (assessment_of password corpus None sg1)
   <=? risk_score (assessment_of password corpus online sg2))%float = true.
Proof.
  unfold assessment_of. cbn [risk_score]. unfold online_step, offline_step.
  generalize (_offline_breach_match password corpus). intros [];
    (destruct online as [[[] count]|]; [ | destruct (bool_decide (count = Some 0%Z)) | ]);
    case_signals password; reflexivity.
Qed.

(** X14.  Asking for the online check never lowers an assessment: the
    risk score with the check is at least the score without it, the
    offline mark is the same, and unless the password was found online
    the score and the label are the same.  The call with the check
    raises where the call without it returns only when the lookup
    raises; both raise only on the empty password or when the loader
    raises, and then the same exception. *)
Theorem online_check_never_lowers_score (password : string) (env : Env) (st0 st1 : St) :
  match (assess_password password false env st0).2,
        (assess_password password true env st1).2 with
  | Ok a0, Ok a1 =>
      (risk_score a0 <=? risk_score a1)%float = true
      /\ breached_offline a1 = breached_offline a0
      /\ (breached_online a1 <> Some true ->
          risk_score a1 = risk_score a0 /\ label a1 = label a0)
  | Ok a0, Raise e => lookup_value password 5 env = Raise e
  | Raise e0, Raise e1 => e1 = e0 /\ (password = "" \/ load_value env = Raise e0)
  | Raise _, Ok _ => False
  end.
Proof.
  destruct (string_dec password "") as [->|Hne]; [split; [reflexivity | left; reflexivity]|].
  destruct (assess_password_run password false env st0 Hne) as (? & sg0 & Hrun0 & _).
  destruct (assess_password_run password true env st1 Hne) as (? & sg1 & Hrun1 & _).
  rewrite Hrun0, Hrun1. cbn [snd]. unfold checks_value, online_value.
  destruct (load_value env) as [corpus|e]; [|split; [reflexivity | right; reflexivity]].
  destruct (lookup_value password 5 env) as [[found count]|e]; [|reflexivity].
  split; [apply assessment_score_online_mono|]. split; [reflexivity|].
  unfold assessment_of. cbn [breached_online option_map fst risk_score label].
  destruct found; [congruence|]. intros _.
  unfold online_step. destruct (bool_decide (count = Some 0%Z)); split; reflexivity.
Qed.

(** ** What the lookup reports *)

Lemma char_upper_hex (c : ascii) :
  all_char is_hex_upper (char_upper c) = is_hex_digit c.
Proof. destruct c as [[] [] [] [] [] [] [] []]; reflexivity. Qed.

(** A text whose upper-case form is made of hexadecimal digits is made
    of ASCII hexadecimal digits: a character whose capital [char_upper]
    does not give as Python does is never part of it. *)
Lemma upper_hex_is_ascii (s : string) :
  all_char is_hex_upper (upper s) = all_char is_hex_digit s.
Proof.
  induction s as [|c s IH]; [reflexivity|].
  cbn [upper all_char]. rewrite all_char_app, char_upper_hex, IH. reflexivity.
Qed.

(** The candidate of a line that matches the password's suffix is, once
    trimmed, made of ASCII hexadecimal digits. *)
Lemma matching_candidate_is_hex (password candidate : string) :
  upper (strip candidate) = hash_suffix password ->
  all_char is_hex_digit (strip candidate) = true.
Proof.
  intros H. rewrite <- upper_hex_is_ascii, H. apply hash_suffix_hex.
Qed.

Lemma scan_lines_not_found_iff (suffix : string) (lines : list string) :
  scan_lines suffix lines = Ok (false, Some 0%Z)
  <-> forallb (line_skipped suffix) lines = true.
Proof.
  induction lines as [|line rest IH]; [simpl; tauto|].
  cbn [forallb]. destruct (line_skipped suffix line) eqn:Hskip.
  - rewrite (scan_lines_skip _ _ _ Hskip). exact IH.
  - cbn [andb]. split; [|discriminate].
    destruct (line_raises suffix line) eqn:Hraise.
    + destruct (scan_lines_raise _ _ rest Hraise) as [msg ->]. discriminate.
    + destruct (scan_lines_hit _ _ rest Hskip Hraise) as [n ->]. discriminate.
Qed.

(** A line that carries the suffix (in any case, with white space around
    it) and a count that [int] accepts. *)
Lemma scan_lines_hit_iff (suffix line : string) (rest : list string) (n : Z) :
  scan_lines suffix (line :: rest) = Ok (true, Some n)
  <-> (line_skipped suffix line = true /\ scan_lines suffix rest = Ok (true, Some n))
      \/ (line <> ""
          /\ exists candidate count,
               split ":" line = [candidate; count]
               /\ upper (strip candidate) = suffix
               /\ parse_int (strip count) = Some n).
Proof.
  destruct (line_skipped suffix line) eqn:Hskip.
  - rewrite (scan_lines_skip _ _ _ Hskip). split; [auto|].
    intros [[_ H]|(Hne & candidate & count & Hsplit & Hsuffix & _)]; [exact H|].
    exfalso. unfold line_skipped in Hskip.
    rewrite (proj2 (truthy_iff line) Hne), Hsplit in Hskip. simpl in Hskip.
    apply negb_true_iff, String.eqb_neq in Hskip. contradiction.
  - unfold line_skipped in Hskip. apply orb_false_iff in Hskip as [Htruthy Hskip].
    apply negb_false_iff in Htruthy. simpl. rewrite Htruthy. simpl.
    destruct (split ":" line) as [|candidate [|count [|? ?]]];
      try (split; [discriminate | intros [[H _]|(_ & ? & ? & H & _)]; discriminate]).
    apply negb_false_iff in Hskip. rewrite Hskip. apply String.eqb_eq in Hskip.
    unfold py_int. split.
    + intros H. right. split; [apply truthy_iff, Htruthy|].
      exists candidate, count. destruct (parse_int (strip count)); [|discriminate].
      injection H as ->. auto.
    + intros [[H _]|(_ & ? & ? & H & _ & Hn)]; [discriminate|].
      injection H as <- <-. rewrite Hn. reflexivity.
Qed.

Lemma scan_lines_found_iff (suffix : string) (lines : list string) (n : Z) :
  scan_lines suffix lines = Ok (true, Some n)
  <-> exists pre line post candidate count,
        lines = (pre ++ line :: post)%list
        /\ forallb (line_skipped suffix) pre = true
        /\ line <> ""
        /\ split ":" line = [candidate; count]
        /\ upper (strip candidate) = suffix
        /\ parse_int (strip count) = Some n.
Proof.
  induction lines as [|line rest IH].
  - split; [discriminate|]. intros (pre & ? & ? & ? & ? & H & _). destruct pre; discriminate.
  - rewrite scan_lines_hit_iff, IH. split.
    + intros [[Hskip (pre & l & post & candidate & count & -> & Hpre & Hrest)]
             |(Hne & candidate & count & Hsplit & Hsuffix & Hn)].
      * exists (line :: pre), l, post, candidate, count.
        destruct Hrest as (Hne & Hsplit & Hsuffix & Hn).
        simpl. rewrite Hskip, Hpre. repeat split; assumption.
      * exists [], line, rest, candidate, count. repeat split; assumption.
    + intros (pre & l & post & candidate & count & Heq & Hpre & Hrest).
      destruct pre as [|l0 pre]; simpl in Heq; injection Heq as -> ->.
      * right. destruct Hrest as (Hne & Hsplit & Hsuffix & Hn).
        split; [exact Hne|]. exists candidate, count. repeat split; assumption.
      * simpl in Hpre. apply andb_true_iff in Hpre as [Hskip Hpre].
        left. split; [exact Hskip|]. exists pre, l, post, candidate, count.
        destruct Hrest as (Hne & Hsplit & Hsuffix & Hn). repeat split; assumption.
Qed.

Lemma scan_lines_shape (suffix : string) (lines : list string) (r : bool * option Z) :
  scan_lines suffix lines = Ok r -> r = (false, Some 0%Z) \/ exists n, r = (true, Some n).
Proof.
  induction lines as [|line rest IH]; intros H.
  - left. simpl in H. congruence.
  - destruct (line_skipped suffix line) eqn:Hskip.
    + rewrite (scan_lines_skip _ _ _ Hskip) in H. apply IH, H.
    + destruct (line_raises suffix line) eqn:Hraise.
      * destruct (scan_lines_raise _ _ rest Hraise) as [msg Hmsg]. congruence.
      * destruct (scan_lines_hit _ _ rest Hskip Hraise) as [n Hn]. right. exists n. congruence.
Qed.

(** X15.  On a 200 response the lookup reports the count of the first
    line that carries the password's suffix: lines after it are not
    looked at, and lines before it must be empty or carry another
    suffix.  It reports "not found" with count 0 exactly when every line
    is empty or carries another suffix.  Nothing else is ever
    returned. *)
Theorem lookup_reports_first_match
    (password : string) (timeout : float) (env : Env) (st : St) (body : string) :
  urlopen env (range_request (hash_prefix password)) timeout = Ok body ->
  ((_hibp_lookup password timeout env st).2 = Ok (false, Some 0%Z)
   <-> forallb (line_skipped (hash_suffix password)) (splitlines body) = true)
  /\ (forall n,
         (_hibp_lookup password timeout env st).2 = Ok (true, Some n)
         <-> exists pre line post candidate count,
               splitlines body = (pre ++ line :: post)%list
               /\ forallb (line_skipped (hash_suffix password)) pre = true
               /\ line <> ""
               /\ split ":" line = [candidate; count]
               /\ upper (strip candidate) = hash_suffix password
               /\ parse_int (strip count) = Some n)
  /\ (forall r,
         (_hibp_lookup password timeout env st).2 = Ok r ->
         r = (false, Some 0%Z) \/ exists n, r = (true, Some n)).
Proof.
  intros Hnet. rewrite hibp_lookup_run. cbn [snd]. unfold lookup_value. rewrite Hnet.
  split; [apply scan_lines_not_found_iff|].
  split; [intros n; apply scan_lines_found_iff | apply scan_lines_shape].
Qed.

Lemma lookup_reports_first_match_witness :
  ((_hibp_lookup "password" 5 (serving_env duplicated_suffix_body) initial_state).2
   = Ok (false, Some 0%Z)
   <-> forallb (line_skipped (hash_suffix "password")) (splitlines duplicated_suffix_body)
       = true)
  /\ (forall n,
         (_hibp_lookup "password" 5 (serving_env duplicated_suffix_body) initial_state).2
         = Ok (true, Some n)
         <-> exists pre line post candidate count,
               splitlines duplicated_suffix_body = (pre ++ line :: post)%list
               /\ forallb (line_skipped (hash_suffix "password")) pre = true
               /\ line <> ""
               /\ split ":" line = [candidate; count]
               /\ upper (strip candidate) = hash_suffix "password"
               /\ parse_int (strip count) = Some n)
  /\ (forall r,
         (_hibp_lookup "password" 5 (serving_env duplicated_suffix_body) initial_state).2
         = Ok r ->
         r = (false, Some 0%Z) \/ exists n, r = (true, Some n)).
Proof.
  apply (lookup_reports_first_match "password" 5 (serving_env duplicated_suffix_body)
           initial_state duplicated_suffix_body).
  reflexivity.
Defined.

Example first_of_two_counts_is_reported :
  (_hibp_lookup "password" 5 (serving_env duplicated_suffix_body) initial_state).2
  = Ok (true, Some 3%Z).
Proof. vm_compute. reflexivity. Qed.

Lemma lookup_value_shape (password : string) (timeout : float) (env : Env)
    (r : bool * option Z) :
  lookup_value password timeout env = Ok r ->
  (r = (false, None)
   /\ exists e,
        urlopen env (range_request (hash_prefix password)) timeout = Raise e
        /\ isinstance e URLError_ = true)
  \/ (r = (false, Some 0%Z)
      /\ exists body, urlopen env (range_request (hash_prefix password)) timeout = Ok body)
  \/ (exists n, r = (true, Some n))
     /\ exists body, urlopen env (range_request (hash_prefix password)) timeout = Ok body.
Proof.
  unfold lookup_value.
  destruct (urlopen env (range_request (hash_prefix password)) timeout) as [body|e].
  - intros H. right. destruct (scan_lines_shape _ _ _ H) as [->|Hn]; eauto.
  - simpl. destruct (isinstance e URLError_) eqn:Hcls.
    + simpl. intros H. left. split; [congruence | eauto].
    + destruct e; try discriminate Hcls; discriminate.
Qed.

Lemma online_step_unavailable (sr : float * list string) :
  online_step (Some (false, None)) sr
  = (sr.1, append sr.2 "Have I Been Pwned lookup unavailable").
Proof. reflexivity. Qed.

Lemma online_step_not_found (sr : float * list string) :
  online_step (Some (false, Some 0%Z)) sr
  = (sr.1, append sr.2 "Not found in Have I Been Pwned password corpus").
Proof. reflexivity. Qed.

Lemma online_step_found (n : Z) (sr : float * list string) :
  online_step (Some (true, Some n)) sr
  = ((sr.1 + 0.35)%float, append sr.2 "Found in Have I Been Pwned password corpus").
Proof. reflexivity. Qed.

Lemma last_append {A : Type} (l : list A) (x d : A) : List.last (append l x) d = x.
Proof. unfold append. apply last_last. Qed.

(** X16.  The online fields of an assessment take one of four shapes.
    Without the check both are absent.  With it: found, with the count of
    the matching line; not found, with count 0, after a 200 response; or
    not found with no count, when the transport raised a [URLError].  In
    each case with the check the matching reason is the last one, so a
    failed lookup is told apart from a definite "not found". *)
Theorem online_fields_shape
    (password : string) (include_hibp : bool) (env : Env) (st : St) :
  match (assess_password password include_hibp env st).2 with
  | Ok a =>
      if include_hibp
      then
        (breached_online a = Some true
         /\ (exists n, hibp_count a = Some n)
         /\ List.last (reasons a) "" = "Found in Have I Been Pwned password corpus")
        \/ (breached_online a = Some false
            /\ hibp_count a = Some 0%Z
            /\ List.last (reasons a) "" = "Not found in Have I Been Pwned password corpus"
            /\ exists body,
                 urlopen env (range_request (hash_prefix password)) 5 = Ok body)
        \/ (breached_online a = Some false
            /\ hibp_count a = None
            /\ List.last (reasons a) "" = "Have I Been Pwned lookup unavailable"
            /\ exists e,
                 urlopen env (range_request (hash_prefix password)) 5 = Raise e
                 /\ isinstance e URLError_ = true)
      else breached_online a = None /\ hibp_count a = None
  | Raise _ => True
  end.
Proof.
  destruct (string_dec password "") as [->|Hne]; [exact I|].
  destruct (assess_password_run password include_hibp env st Hne) as (st' & sg & Hrun & _).
  rewrite Hrun. cbn [snd]. unfold checks_value, online_value.
  destruct (load_value env) as [corpus|e]; [|exact I].
  destruct include_hibp; [|split; reflexivity].
  destruct (lookup_value password 5 env) as [r|e] eqn:Hlookup; [|exact I].
  unfold assessment_of.
  cbn [breached_online hibp_count reasons option_map from_option].
  destruct (lookup_value_shape _ _ _ _ Hlookup)
    as [[-> Hraise]|[[-> Hbody]|[[n ->] Hbody]]].
  - right. right. rewrite online_step_unavailable. cbn [fst snd].
    rewrite last_append. auto.
  - right. left. rewrite online_step_not_found. cbn [fst snd].
    rewrite last_append. auto.
  - left. rewrite online_step_found. cbn [fst snd].
    rewrite last_append. eauto.
Qed.

(** ** The suggestions *)

Lemma any_char_app (f : ascii -> bool) (s t : string) :
  any_char f (s ++ t) = any_char f s || any_char f t.
Proof.
  induction s as [|c s IH]; [reflexivity|].
  rewrite app_cons. simpl. rewrite IH, orb_assoc. reflexivity.
Qed.

Lemma nth_mod_In {A : Type} (l : list A) (d : A) (k : nat) :
  l <> [] -> List.In (nth (k mod List.length l) l d) l.
Proof.
  intros Hne. apply nth_In. apply Nat.mod_upper_bound.
  destruct l; [congruence | discriminate].
Qed.

Lemma secrets_choice_eq {A : Type} (default : A) (seq : list A) (env : Env) (st : St) :
  secrets_choice default seq env st
  = ({| trace := append (trace st) (RandomDraw (List.length seq)); drawn := S (drawn st) |},
     Ok (nth (entropy env (drawn st) mod List.length seq) seq default)).
Proof. reflexivity. Qed.

Lemma secrets_choice_char_eq (seq : string) (env : Env) (st : St) :
  secrets_choice_char seq env st
  = ({| trace := append (trace st) (RandomDraw (List.length (list_ascii_of_string seq)));
        drawn := S (drawn st) |},
     Ok (String (nth (entropy env (drawn st) mod List.length (list_ascii_of_string seq))
                     (list_ascii_of_string seq) " "%char) "")).
Proof. reflexivity. Qed.

Lemma suggestion_word_shape (word : string) :
  List.In word ["orbit"; "cobalt"; "harbor"; "falcon"; "ember"; "sage"; "vivid"] ->
  4 <= String.length (capitalize word) <= 6
  /\ any_char char_isupper (capitalize word) = true
  /\ any_char char_islower (capitalize word) = true.
Proof.
  simpl. intros H.
  repeat (destruct H as [<-|H];
          [split; [vm_compute; lia | split; reflexivity]|]).
  destruct H.
Qed.

Lemma suggestion_mixed_shape (word : string) (symbol d1 d2 letter : ascii) :
  List.In word ["orbit"; "cobalt"; "harbor"; "falcon"; "ember"; "sage"; "vivid"] ->
  List.In symbol (list_ascii_of_string "!@#$%") ->
  List.In d1 (list_ascii_of_string digits) ->
  suggestion_shape (capitalize word ++ String symbol "" ++ (String d1 "" ++ String d2 "")
                    ++ String letter "") = true.
Proof.
  intros Hword Hsymbol Hd1.
  destruct (suggestion_word_shape word Hword) as (Hlen & Hupper & Hlower).
  assert (Hpunct : char_in symbol punctuation = true).
  { simpl in Hsymbol. repeat (destruct Hsymbol as [<-|Hsymbol]; [reflexivity|]).
    destruct Hsymbol. }
  assert (Hdigit : char_isdigit d1 = true).
  { simpl in Hd1. repeat (destruct Hd1 as [<-|Hd1]; [reflexivity|]). destruct Hd1. }
  set (rest := String symbol "" ++ (String d1 "" ++ String d2 "") ++ String letter "").
  assert (Hrest : String.length rest = 4) by reflexivity.
  assert (Hrest_digit : any_char char_isdigit rest = true).
  { change rest with (String symbol (String d1 (String d2 (String letter "")))).
    cbn [any_char]. rewrite Hdigit. apply orb_true_r. }
  assert (Hrest_punct : any_char (fun c => char_in c punctuation) rest = true).
  { change rest with (String symbol (String d1 (String d2 (String letter "")))).
    cbn [any_char]. rewrite Hpunct. reflexivity. }
  unfold suggestion_shape.
  rewrite !any_char_app, Hupper, Hlower, Hrest_digit, Hrest_punct, length_app, Hrest.
  rewrite !orb_true_r. cbn [orb andb]. rewrite !andb_true_r.
  apply andb_true_iff. split; apply Nat.leb_le; lia.
Qed.

Lemma suggestion_loop_shape (env : Env) (count : nat) :
  forall (acc : list string) (st : St),
  exists new,
    (suggestion_loop count acc env st).2 = Ok (acc ++ new)%list
    /\ List.length new = count
    /\ Forall (fun s => suggestion_shape s = true) new
    /\ drawn (suggestion_loop count acc env st).1 = drawn st + 5 * count.
Proof.
  induction count as [|count IH]; intros acc st.
  - exists []. simpl. rewrite app_nil_r. repeat split; [constructor | lia].
  - cbn [suggestion_loop]. unfold mbind, M_bind.
    rewrite !secrets_choice_eq, !secrets_choice_char_eq. cbn [drawn trace].
    match goal with
    | |- context [suggestion_loop count (append acc ?mixed) env ?st'] =>
        destruct (IH (append acc mixed) st') as (new & Hrun & Hlen & Hshape & Hdrawn);
        exists (mixed :: new)
    end.
    rewrite Hrun, Hdrawn. cbn [drawn]. unfold append. rewrite <- app_assoc.
    split; [reflexivity|]. split; [simpl; lia|]. split; [|lia].
    constructor; [|exact Hshape].
    apply suggestion_mixed_shape; apply nth_mod_In; discriminate.
Qed.

Lemma generate_suggestions_run_shape (password : string) (count : nat) (env : Env) (st : St) :
  exists suggestions,
    (_generate_suggestions password count env st).2 = Ok suggestions
    /\ List.length suggestions = Nat.max 1 count
    /\ (count = 0 -> suggestions = [password])
    /\ (0 < count -> Forall (fun s => suggestion_shape s = true) suggestions)
    /\ drawn (_generate_suggestions password count env st).1 = drawn st + 5 * count.
Proof.
  unfold _generate_suggestions, mbind, M_bind.
  destruct (suggestion_loop_shape env count [] st) as (new & Hrun & Hlen & Hshape & Hdrawn).
  destruct (suggestion_loop count [] env st) as [st' r]. cbn [fst snd] in *.
  rewrite Hrun. cbn [app fst snd]. destruct new as [|s new].
  - exists [password]. simpl in Hlen. subst count.
    repeat split; try reflexivity; [lia | exact Hdrawn].
  - exists (s :: new). simpl in Hlen.
    split; [reflexivity|]. split; [simpl; lia|]. split; [lia|]. split; [auto | exact Hdrawn].
Qed.

(** X17.  The generator always returns: as many suggestions as were asked
    for, each of 8 to 10 characters with an upper-case letter, a
    lower-case letter, a digit and a punctuation mark, after five draws
    per suggestion; asked for none, it returns the password itself, so
    the list is never empty. *)
Theorem generate_suggestions_shape (password : string) (count : nat) (env : Env) (st : St) :
  exists suggestions,
    (_generate_suggestions password count env st).2 = Ok suggestions
    /\ List.length suggestions = Nat.max 1 count
    /\ (count = 0 -> suggestions = [password])
    /\ (0 < count -> Forall (fun s => suggestion_shape s = true) suggestions)
    /\ drawn (_generate_suggestions password count env st).1 = drawn st + 5 * count.
Proof. apply generate_suggestions_run_shape. Qed.

(** A run on a non-empty password, with the origin of its suggestions:
    they are what the generator returns for this password and a count of
    three. *)
Lemma assess_password_run_suggestions
    (password : string) (include_hibp : bool) (env : Env) (st : St) (corpus : gset string) :
  password <> "" ->
  load_value env = Ok corpus ->
  exists st0 suggestions,
    (_generate_suggestions password 3 env st0).2 = Ok suggestions
    /\ (assess_password password include_hibp env st).2
       = match online_value password include_hibp env with
         | Ok online => Ok (assessment_of password corpus online suggestions)
         | Raise e => Raise e
         end.
Proof.
  intros Hne Hvalue.
  destruct (load_breached_passwords_run env st) as (st1 & Hload & _).
  rewrite Hvalue in Hload.
  set (st2 := if include_hibp
              then log (HttpGet (range_request (hash_prefix password)) 5) st1 else st1).
  destruct (generate_suggestions_run password 3 env st2) as (st3 & sg & Hsg & _).
  exists st2, sg. split; [rewrite Hsg; reflexivity|].
  unfold assess_password, assessment_of, heuristics, online_value.
  rewrite (truthy_nonempty _ Hne). change (negb true) with false. cbv iota.
  unfold mbind at 1. unfold M_bind at 1. cbv beta. rewrite Hload.
  cbv zeta.
  repeat match goal with
         | |- context [match ?E with (_, _) => _ end] =>
             match E with
             | (if _ then _ else _) => destruct E as [? ?] eqn:?
             end
         end.
  unfold offline_step. cbn [fst snd]. rewrite Heqp4.
  subst st2. unfold mbind, M_bind. destruct include_hibp.
  - rewrite hibp_lookup_run.
    destruct (lookup_value password 5 env) as [[found count]|e]; [|reflexivity].
    destruct found; [| destruct (bool_decide (count = Some 0%Z)) eqn:Hcount];
      cbn -[_generate_suggestions _offline_breach_match py_min _format_risk_label];
      rewrite ?Hcount, Hsg; reflexivity.
  - cbn -[_generate_suggestions _offline_breach_match py_min _format_risk_label].
    rewrite Hsg. reflexivity.
Qed.

Lemma suggestion_shape_assessment (s : string) (corpus : gset string)
    (online : option (bool * option Z)) (sg : list string) :
  suggestion_shape s = true ->
  nth 0 (reasons (assessment_of s corpus online sg)) ""
  = "Shorter than recommended (12+ characters)"
  /\ nth 1 (reasons (assessment_of s corpus online sg)) ""
     = "Uses multiple character categories"
  /\ (0.2 <=? risk_score (assessment_of s corpus online sg))%float = true.
Proof.
  unfold suggestion_shape. intros H.
  apply andb_true_iff in H as [H Hpunct]. apply andb_true_iff in H as [H Hdigit].
  apply andb_true_iff in H as [H Hlower]. apply andb_true_iff in H as [H Hupper].
  apply andb_true_iff in H as [Hmin Hmax].
  apply Nat.leb_le in Hmin. apply Nat.leb_le in Hmax.
  unfold assessment_of, heuristics. cbn [reasons risk_score].
  replace (String.length s <? 8)%nat with false by (symmetry; apply Nat.ltb_ge; lia).
  replace (String.length s <? 12)%nat with true by (symmetry; apply Nat.ltb_lt; lia).
  rewrite Hupper, Hlower, Hdigit, Hpunct.
  cbn [bool_count List.filter List.length Nat.leb].
  unfold offline_step, online_step.
  generalize (_contains_sequence (lower s)), (_contains_repetition s),
             (_check_substitutions s), (_offline_breach_match s corpus).
  intros [] [] [] [];
    (destruct online as [[[] count]|]; [ | destruct (bool_decide (count = Some 0%Z)) | ]);
    repeat apply conj; reflexivity.
Qed.

(** X18.  Every assessment carries exactly three suggestions, each of 8
    to 10 characters with all four character categories.  Assessed in
    their turn, in any environment, such suggestions are always told
    "Shorter than recommended (12+ characters)" as well as "Uses multiple
    character categories", unless that call raises because its loader
    or its lookup does: the analyzer never suggests a password that
    meets its own recommended length. *)
Theorem suggestions_fall_short_of_the_recommendation
    (password : string) (include_hibp : bool) (env : Env) (st : St) :
  match (assess_password password include_hibp env st).2 with
  | Ok a =>
      List.length (suggestions a) = 3
      /\ Forall (fun s => suggestion_shape s = true) (suggestions a)
      /\ forall s, List.In s (suggestions a) ->
         forall (include_hibp' : bool) (env' : Env) (st' : St),
           match (assess_password s include_hibp' env' st').2 with
           | Ok a' =>
               nth 0 (reasons a') "" = "Shorter than recommended (12+ characters)"
               /\ nth 1 (reasons a') "" = "Uses multiple character categories"
               /\ (0.2 <=? risk_score a')%float = true
           | Raise e =>
               load_value env' = Raise e
               \/ (include_hibp' = true /\ lookup_value s 5 env' = Raise e)
           end
  | Raise _ => True
  end.
Proof.
  destruct (string_dec password "") as [->|Hne]; [exact I|].
  destruct (load_value env) as [corpus|e] eqn:Hvalue.
  2:{ destruct (assess_password_run_unloaded password include_hibp env st e Hne Hvalue)
        as (? & Hrun & _).
      rewrite Hrun. exact I. }
  destruct (assess_password_run_suggestions password include_hibp env st corpus Hne Hvalue)
    as (st0 & sg & Hgen & Hrun).
  rewrite Hrun.
  destruct (online_value password include_hibp env) as [online|e]; [|exact I].
  cbn [suggestions assessment_of].
  destruct (generate_suggestions_run_shape password 3 env st0)
    as (sg' & Hgen' & Hlen & _ & Hshape & _).
  rewrite Hgen in Hgen'. injection Hgen' as <-.
  specialize (Hshape ltac:(lia)).
  split; [exact Hlen|]. split; [exact Hshape|].
  intros s Hs include_hibp' env' st'.
  rewrite Forall_forall in Hshape.
  specialize (Hshape s (proj2 (list_elem_of_In _ _) Hs)).
  assert (Hs_ne : s <> "").
  { intros ->. discriminate Hshape. }
  destruct (assess_password_run s include_hibp' env' st' Hs_ne) as (? & sg' & Hrun' & _).
  rewrite Hrun'. cbn [snd].
  destruct (checks_value s include_hibp' env') as [[corpus' online']|e] eqn:Hchecks;
    [|apply (checks_value_raise _ _ _ _ Hchecks)].
  apply suggestion_shape_assessment, Hshape.
Qed.

(** ** Shape of the reasons, and two floors on the verdict *)

Lemma heuristics_reasons_shape (password : string) :
  2 <= List.length (heuristics password).2 <= 5
  /\ List.In (nth 0 (heuristics password).2 "")
             ["Too short (under 8 characters)";
              "Shorter than recommended (12+ characters)";
              "Length meets recommended minimum"]
  /\ List.In (nth 1 (heuristics password).2 "")
             ["Limited character variety"; "Uses multiple character categories"].
Proof.
  case_signals password; cbn; (split; [lia|]); split; in_list.
Qed.

Lemma length_append {A : Type} (l : list A) (x : A) :
  List.length (append l x) = S (List.length l).
Proof. unfold append. rewrite List.length_app. simpl. lia. Qed.

Lemma nth_append {A : Type} (l : list A) (x d : A) (i : nat) :
  i < List.length l -> nth i (append l x) d = nth i l d.
Proof. intros H. unfold append. apply app_nth1, H. Qed.

(** X19.  Every assessment gives between two and seven reasons, the
    first about the length and the second about the character variety:
    both verdicts are reported even when they are favourable. *)
Theorem reasons_shape (password : string) (include_hibp : bool) (env : Env) (st : St) :
  match (assess_password password include_hibp env st).2 with
  | Ok a =>
      2 <= List.length (reasons a) <= 7
      /\ List.In (nth 0 (reasons a) "")
                 ["Too short (under 8 characters)";
                  "Shorter than recommended (12+ characters)";
                  "Length meets recommended minimum"]
      /\ List.In (nth 1 (reasons a) "")
                 ["Limited character variety"; "Uses multiple character categories"]
  | Raise _ => True
  end.
Proof.
  destruct (string_dec password "") as [->|Hne]; [exact I|].
  destruct (assess_password_run password include_hibp env st Hne) as (st' & sg & Hrun & _).
  rewrite Hrun. cbn [snd].
  destruct (checks_value password include_hibp env) as [[corpus online]|e]; [|exact I].
  unfold assessment_of. cbn [reasons].
  destruct (heuristics_reasons_shape password) as (Hlen & H0 & H1).
  destruct (heuristics password) as [score rs]. cbn [snd] in *.
  unfold offline_step, online_step.
  destruct (_offline_breach_match password corpus);
    (destruct online as [[[] count]|]; [ | destruct (bool_decide (count = Some 0%Z)) | ]);
    cbn [fst snd];
    rewrite ?length_append, ?nth_append by (rewrite ?length_append; lia);
    (split; [lia|]); split; assumption.
Qed.

Lemma assessment_short_plain (password : string) (corpus : gset string)
    (online : option (bool * option Z)) (sg : list string) :
  String.length password < 8 ->
  bool_count [any_char char_islower password;
              any_char char_isupper password;
              any_char char_isdigit password;
              any_char (fun c => char_in c punctuation) password] <= 2 ->
  (0.6 <=? risk_score (assessment_of password corpus online sg))%float = true
  /\ label (assessment_of password corpus online sg) <> "low".
Proof.
  intros Hlen Hcat. unfold assessment_of, heuristics. cbn [risk_score label].
  replace (String.length password <? 8)%nat with true by (symmetry; apply Nat.ltb_lt; lia).
  replace (bool_count _ <=? 2)%nat with true by (symmetry; apply Nat.leb_le; exact Hcat).
  unfold offline_step, online_step.
  generalize (_contains_sequence (lower password)), (_contains_repetition password),
             (_check_substitutions password), (_offline_breach_match password corpus).
  intros [] [] [] [];
    (destruct online as [[[] count]|]; [ | destruct (bool_decide (count = Some 0%Z)) | ]);
    (split; [reflexivity | vm_compute; discriminate]).
Qed.

(** X20.  A password of fewer than 8 characters with at most two
    character categories is never rated "low": its risk score is at
    least 0.6.  The call returns an assessment unless the loader or the
    lookup raised. *)
Theorem short_plain_password_is_never_low
    (password : string) (include_hibp : bool) (env : Env) (st : St) :
  0 < String.length password < 8 ->
  bool_count [any_char char_islower password;
              any_char char_isupper password;
              any_char char_isdigit password;
              any_char (fun c => char_in c punctuation) password] <= 2 ->
  match (assess_password password include_hibp env st).2 with
  | Ok a => (0.6 <=? risk_score a)%float = true /\ label a <> "low"
  | Raise e =>
      load_value env = Raise e
      \/ (include_hibp = true /\ lookup_value password 5 env = Raise e)
  end.
Proof.
  intros [Hpos Hlen] Hcat.
  assert (Hne : password <> "") by (intros ->; simpl in Hpos; lia).
  destruct (assess_password_run password include_hibp env st Hne) as (st' & sg & Hrun & _).
  rewrite Hrun. cbn [snd].
  destruct (checks_value password include_hibp env) as [[corpus online]|e] eqn:Hchecks;
    [|apply (checks_value_raise _ _ _ _ Hchecks)].
  apply assessment_short_plain; assumption.
Qed.

Lemma short_plain_password_is_never_low_witness :
  match (assess_password "kx7mq" false offline_env initial_state).2 with
  | Ok a => (0.6 <=? risk_score a)%float = true /\ label a <> "low"
  | Raise e =>
      load_value offline_env = Raise e
      \/ (false = true /\ lookup_value "kx7mq" 5 offline_env = Raise e)
  end.
Proof.
  apply (short_plain_password_is_never_low "kx7mq" false offline_env initial_state).
  - simpl. lia.
  - vm_compute. lia.
Defined.

(** X21.  A password that is marked breached offline and found online is
    never rated "low": those two increments alone bring the risk score
    past the "medium" threshold of 0.45. *)
Theorem doubly_breached_password_is_never_low
    (password : string) (include_hibp : bool) (env : Env) (st : St) :
  match (assess_password password include_hibp env st).2 with
  | Ok a =>
      breached_offline a = true -> breached_online a = Some true ->
      (0.45 <=? risk_score a)%float = true /\ label a <> "low"
  | Raise _ => True
  end.
Proof.
  destruct (string_dec password "") as [->|Hne]; [exact I|].
  destruct (assess_password_run password include_hibp env st Hne) as (st' & sg & Hrun & _).
  rewrite Hrun. cbn [snd].
  destruct (checks_value password include_hibp env) as [[corpus online]|e]; [|exact I].
  unfold assessment_of. cbn [breached_offline breached_online risk_score label].
  intros Hoff Hon. rewrite Hoff.
  destruct online as [[[] count]|]; try discriminate Hon.
  unfold offline_step, online_step.
  case_signals password; (split; [reflexivity | vm_compute; discriminate]).
Qed.

Example doubly_breached_password :
  exists a,
    (assess_password "password" true breached_env initial_state).2 = Ok a
    /\ breached_offline a = true
    /\ breached_online a = Some true
    /\ hibp_count a = Some 3861493%Z
    /\ label a = "high".
Proof. eexists. repeat apply conj; vm_compute; reflexivity. Qed.
